(** * arxiv_scraper: the markdown formatter and the download orchestrator

    A shallow embedding of [src/main.py] and the properties of its two
    working parts: [convert_pdf_to_markdown] (pure text processing over the
    pages pypdf extracts) and [main] (a sequential loop over queries and
    search results with per-record exception handling).

    Python values are modelled as follows.
    - [str] is a sequence of Unicode code points, [list N].
    - [int] is [Z].
    - Exceptions are values of [Exn]; a computation that may raise returns
      [Exn + A] next to the world it leaves behind.
    - The file system, the console and the clock are fields of [World];
      everything the program asks of its surroundings is also recorded, in
      order, in the world's [trace]. *)

From Stdlib Require Import ZArith NArith Ascii String List Bool Lia.
From Stdlib Require Import DecimalString DecimalZ.
From stdpp Require Import base decidable option list gmap.

Local Open Scope list_scope.
Local Open Scope N_scope.

(** ** Python strings *)

Module PyStr.

(** A Python [str]: its code points, in order. *)
Definition str := list N.

(** An ASCII literal of the source as a [str]. *)
Definition lit (s : string) : str := map N_of_ascii (list_ascii_of_string s).
Arguments lit : simpl never.

Definition LF : N := 10.      (* '\n' *)
Definition SPACE : N := 32.   (* ' '  *)
Definition UNDERSCORE : N := 95.
Definition ESC : N := 27.     (* '\033' *)

(** [str.isspace] on one code point: CPython's [_PyUnicode_IsWhitespace],
    the set [str.strip()] removes when called without argument. *)
Definition is_space (c : N) : bool :=
  ((9 <=? c) && (c <=? 13)) || ((28 <=? c) && (c <=? 32))
  || (c =? 133) || (c =? 160) || (c =? 5760)
  || ((8192 <=? c) && (c <=? 8202))
  || (c =? 8232) || (c =? 8233) || (c =? 8239) || (c =? 8287) || (c =? 12288).

(** [s.replace(old, new)] for one-character [old] and [new], the only way
    the source calls it: every occurrence is replaced. *)
Definition replace (old new : N) (s : str) : str :=
  map (fun c => if c =? old then new else c) s.

(** [s.lstrip()], [s.rstrip()] and [s.strip()] without argument. *)
Fixpoint lstrip (s : str) : str :=
  match s with
  | [] => []
  | c :: s' => if is_space c then lstrip s' else s
  end.

Definition rstrip (s : str) : str := rev (lstrip (rev s)).

Definition strip (s : str) : str := rstrip (lstrip s).

(** [s.startswith(p)]. *)
Fixpoint startswith (p s : str) : bool :=
  match p, s with
  | [], _ => true
  | _ :: _, [] => false
  | a :: p', b :: s' => (a =? b) && startswith p' s'
  end.

(** [s.split(sep)] for a non-empty [sep]: scan from the left, cut at each
    occurrence of [sep] and resume after it, so occurrences do not overlap.
    [skip] counts the characters of a separator just matched that are still
    to be passed over; [cur] is the piece being read. *)
Fixpoint split_go (sep : str) (skip : nat) (cur : str) (s : str) : list str :=
  match s with
  | [] => [cur]
  | c :: s' =>
      match skip with
      | S k => split_go sep k cur s'
      | O =>
          if startswith sep s
          then cur :: split_go sep (length sep - 1)%nat [] s'
          else split_go sep 0 (cur ++ [c]) s'
      end
  end.

Definition split (sep : str) (s : str) : list str := split_go sep 0 [] s.

(** [sep.join(pieces)]. *)
Fixpoint join (sep : str) (pieces : list str) : str :=
  match pieces with
  | [] => []
  | [p] => p
  | p :: rest => p ++ sep ++ join sep rest
  end.

(** [str(n)] and the [{n}] of an f-string for an [int]: decimal digits,
    with a leading minus sign for a negative number. *)
Definition str_of_int (n : Z) : str :=
  lit (NilEmpty.string_of_int (Z.to_int n)).
Arguments str_of_int : simpl never.

(** A decimal digit, ['0'] to ['9']. *)
Definition is_digit (c : N) : bool := (48 <=? c) && (c <=? 57).

(** [p in s] for strings: [p] occurs in [s] as a substring. *)
Fixpoint contains (p s : str) : bool :=
  startswith p s || match s with [] => false | _ :: s' => contains p s' end.

End PyStr.
Import PyStr.


(** ** Exceptions, the world and computations that may raise *)

(** The exception classes the source tells apart. Every exception of the
    model is an instance of Python's [Exception], the class both handlers
    of [main] name; what only derives from [BaseException]
    ([KeyboardInterrupt], [SystemExit]) ends the process from outside and
    is not part of the model. *)
Inductive ExnClass : Type :=
| FileNotFoundError
| FileExistsError
| PdfReadError          (* pypdf.errors.PdfReadError *)
| OtherException.

(** An exception object: its class and [str(e)]. *)
Record Exn : Type := { exn_class : ExnClass; exn_str : str }.

(** What a file holds: raw bytes (a download) or text written by
    [file.write]. *)
Inductive FileData : Type :=
| Bytes (b : list N)
| Text (s : str).

(** The file system: the directories and the regular files that exist, by
    the path string the program uses for them (paths are compared as
    written: no resolution of [.], [..], doubled slashes or links). *)
Record FS : Type := { dirs : gset str; files : gmap str FileData }.

(** One arxiv.Result: its title and its capability to fetch the PDF into
    [dirpath] under [filename]. The capability belongs to the arxiv
    library; here it is any change of the file system, with or without an
    exception at its end. *)
Record Result : Type := {
  title : str;
  download_pdf : str -> str -> FS -> FS * option Exn
}.

(** The generator [client.results(search)]: it yields records one at a
    time and either finishes or raises while producing the next one. *)
Inductive Results : Type :=
| RDone
| RYield (r : Result) (rest : Results)
| RRaise (e : Exn).

Inductive SortCriterion : Type := Relevance | LastUpdatedDate | SubmittedDate.

(** The value of [--sort_by]; argparse's [choices] admits these three. *)
Inductive SortBy : Type := relevance | last_updated_date | submitted_date.

Record Client : Type := {
  client_page_size : Z; client_delay_seconds : Z; client_num_retries : Z
}.

Record Search : Type := {
  search_query : str; search_max_results : Z; search_sort_by : SortCriterion
}.

(** The [argparse.Namespace] returned by [parse_args]. *)
Record Args : Type := {
  query_list : list str;
  markdown : bool;
  page_size : Z;
  delay_seconds : Z;
  num_retries : Z;
  max_results : Z;
  sort_by : SortBy;
  output_dir : str
}.

(** What the program does to its surroundings, as it happens. *)
Inductive Event : Type :=
| EPrint (line : str)                         (* print(line) *)
| EMakedirs (name : str) (exist_ok : bool)    (* os.makedirs(name, exist_ok=..) *)
| EDownload (r_title dirpath filename : str)  (* result.download_pdf(..) *)
| EOpenRead (path : str)                      (* open(path, 'rb') *)
| EOpenWrite (path : str).                    (* open(path, "w") *)

(** The state a run works on. [trace] lists the events so far, oldest
    first; [clock] counts the readings of [datetime.now()]. *)
Record World : Type := { fs : FS; trace : list Event; clock : nat }.

(** The surroundings the program does not control. *)
Record Env : Type := {
  (** [datetime.now().strftime("%Y-%m-%d %H:%M:%S")] at the n-th reading *)
  strftime_now : nat -> str;
  (** [pypdf.PdfReader(file)]: it raises, or gives the pages, each with
      the outcome of its [extract_text()] *)
  pdf_reader : FileData -> Exn + list (Exn + str);
  (** [client.results(search)] *)
  client_results : Client -> Search -> Results;
  (** the codec of a file opened in text mode: the exception it raises on
      a text it cannot encode, if any *)
  text_encode_error : str -> option Exn;
  (** what else stops [os.makedirs]: the [OSError] of the operating system
      for this name in this file system (no permission, a read-only or
      full disk, ...), if any *)
  makedirs_error : str -> FS -> option Exn
}.

(** A computation: from a world to the world it leaves and either the
    exception it raised or its value. *)
Definition M (A : Type) : Type := World -> World * (Exn + A).

Definition ret {A} (a : A) : M A := fun w => (w, inr a).

Definition raise {A} (e : Exn) : M A := fun w => (w, inl e).

Definition bind {A B} (m : M A) (k : A -> M B) : M B :=
  fun w => match m w with
           | (w', inl e) => (w', inl e)
           | (w', inr a) => k a w'
           end.

(** [try: m  except Exception as e: handler e]. *)
Definition try_except {A} (m : M A) (handler : Exn -> M A) : M A :=
  fun w => match m w with
           | (w', inl e) => handler e w'
           | (w', inr a) => (w', inr a)
           end.

Notation "x <- m ;; k" := (bind m (fun x => k))
  (at level 100, m at next level, right associativity).
Notation "m ;; k" := (bind m (fun _ => k))
  (at level 100, right associativity).

Definition with_fs (f : FS) (w : World) : World :=
  {| fs := f; trace := trace w; clock := clock w |}.

Definition emit (ev : Event) : M unit :=
  fun w => ({| fs := fs w; trace := trace w ++ [ev]; clock := clock w |}, inr tt).

(** [print(line)]. *)
Definition print (line : str) : M unit := emit (EPrint line).

(** ** The status reporter (lines 8-62) *)

(** colorama's escape sequences. *)
Definition csi (code : string) : str := ESC :: lit ("[" ++ code ++ "m").
Definition Style_BRIGHT : str := csi "1".
Definition Style_RESET_ALL : str := csi "0".
Definition Fore_BLACK : str := csi "30".
Definition Fore_WHITE : str := csi "37".
Definition Back_RED : str := csi "41".
Definition Back_GREEN : str := csi "42".
Definition Back_YELLOW : str := csi "43".
Definition Back_CYAN : str := csi "46".

Section Program.

Variable env : Env.

Definition datetime_now_strftime : M str :=
  fun w => ({| fs := fs w; trace := trace w; clock := S (clock w) |},
            inr (strftime_now env (clock w))).

Definition print_message_with_timestamp (message color : str) : M unit :=
  current_time <- datetime_now_strftime ;;
  print (color ++ current_time ++ lit " - " ++ message ++ Style_RESET_ALL).

Definition success (message : str) : M unit :=
  print_message_with_timestamp message (Style_BRIGHT ++ Fore_BLACK ++ Back_GREEN).

Definition info (message : str) : M unit :=
  print_message_with_timestamp message (Style_BRIGHT ++ Fore_BLACK ++ Back_CYAN).

Definition warning (message : str) : M unit :=
  print_message_with_timestamp message (Style_BRIGHT ++ Fore_BLACK ++ Back_YELLOW).

Definition error (message : str) : M unit :=
  print_message_with_timestamp message (Style_BRIGHT ++ Fore_WHITE ++ Back_RED).

(** ** File system calls *)

(** [path.rstrip('/')]: the name of a directory without the slashes
    written after it. *)
Fixpoint rstrip_slash (path : str) : str :=
  match path with
  | [] => []
  | c :: rest =>
      match rstrip_slash rest with
      | [] => if c =? 47 then [] else [c]
      | rest' => c :: rest'
      end
  end.

(** The ancestors of a path as it is written: what stands before each of
    its ['/']. [seen] is the part already read. *)
Fixpoint ancestors (seen rest : str) : list str :=
  match rest with
  | [] => []
  | c :: rest' =>
      (if c =? 47 then [seen] else []) ++ ancestors (seen ++ [c]) rest'
  end.

(** [os.makedirs(name, exist_ok=exist_ok)]. For a directory that exists
    there is nothing to do when [exist_ok] holds, and [FileExistsError]
    when it does not. Otherwise the directory is made, unless something
    stops [mkdir]: a regular file where one of the ancestors has to be
    ([NotADirectoryError]), a regular file of that very name
    ([FileExistsError], whatever [exist_ok] is), or what the operating
    system refuses for reasons of its own. The directory is recorded
    under the name the call gives it; the ancestors made on the way are
    not. *)
Definition os_makedirs (name : str) (exist_ok : bool) : M unit :=
  emit (EMakedirs name exist_ok) ;;
  fun w =>
    if decide (name ∈ dirs (fs w)) then
      if exist_ok then (w, inr tt)
      else (w, inl {| exn_class := FileExistsError; exn_str := name |})
    else if existsb (fun p => bool_decide (is_Some (files (fs w) !! p)))
                    (ancestors [] (rstrip_slash name)) then
      (w, inl {| exn_class := OtherException; exn_str := name |})
    else if bool_decide (is_Some (files (fs w) !! rstrip_slash name))
            || bool_decide (is_Some (files (fs w) !! name)) then
      (w, inl {| exn_class := FileExistsError; exn_str := name |})
    else
      match makedirs_error env name (fs w) with
      | Some e => (w, inl e)
      | None =>
          (with_fs {| dirs := {[ name ]} ∪ dirs (fs w); files := files (fs w) |} w,
           inr tt)
      end.

(** The directory part of a path: all of it up to the last ['/'],
    that slash included. *)
Fixpoint dirname (path : str) : str :=
  match path with
  | [] => []
  | c :: rest =>
      if existsb (N.eqb 47) rest then c :: dirname rest
      else if c =? 47 then [c] else []
  end.

(** [open(path, 'rb')] and reading the file. *)
Definition open_rb (path : str) : M FileData :=
  emit (EOpenRead path) ;;
  fun w =>
    match files (fs w) !! path with
    | Some data => (w, inr data)
    | None =>
        if decide (path ∈ dirs (fs w))
        then (w, inl {| exn_class := OtherException; exn_str := path |})
        else (w, inl {| exn_class := FileNotFoundError; exn_str := path |})
    end.

(** [with open(path, "w") as f: f.write(text)]. Opening creates the file
    or empties the one that is there, and needs the directory it lies in;
    writing encodes the text first, so a text the codec refuses leaves the
    file empty. *)
Definition write_text (path : str) (text : str) : M unit :=
  emit (EOpenWrite path) ;;
  fun w =>
    if decide (path ∈ dirs (fs w)) then
      (w, inl {| exn_class := OtherException; exn_str := path |})
    else if decide (dirname path ∈ dirs (fs w)) then
      match text_encode_error env text with
      | Some e =>
          (with_fs {| dirs := dirs (fs w);
                      files := <[ path := Text [] ]> (files (fs w)) |} w, inl e)
      | None =>
          (with_fs {| dirs := dirs (fs w);
                      files := <[ path := Text text ]> (files (fs w)) |} w, inr tt)
      end
    else
      (w, inl {| exn_class := FileNotFoundError; exn_str := path |}).

(** [each_result.download_pdf(dirpath=dirpath, filename=filename)]. *)
Definition call_download_pdf (r : Result) (dirpath filename : str) : M unit :=
  emit (EDownload (title r) dirpath filename) ;;
  fun w =>
    match download_pdf r dirpath filename (fs w) with
    | (fs', Some e) => (with_fs fs' w, inl e)
    | (fs', None) => (with_fs fs' w, inr tt)
    end.

(** ** The markdown formatter (lines 146-192) *)

(** Line 181, [paragraph.replace('\n', ' ').strip()]. *)
Definition clean_paragraph (paragraph : str) : str :=
  strip (replace LF SPACE paragraph).

(** Lines 179-183, the body of the loop over the paragraphs of one page;
    [if clean_paragraph:] holds for a non-empty string. *)
Definition paragraph_body (markdown_text paragraph : str) : str :=
  match clean_paragraph paragraph with
  | [] => markdown_text
  | _ :: _ => markdown_text ++ clean_paragraph paragraph ++ [LF; LF]
  end.

(** Lines 175-183, what one page adds to the text: the heading, then its
    paragraphs. [page_num] counts from 0. *)
Definition page_body (markdown_text : str) (page_num : nat) (text : str) : str :=
  let markdown_text :=
    markdown_text ++ [LF] ++ lit "## Page " ++ str_of_int (Z.of_nat page_num + 1) ++ [LF; LF] in
  let paragraphs := split [LF; LF] text in
  fold_left paragraph_body paragraphs markdown_text.

(** Lines 170-183, the loop over the pages; a page whose [extract_text()]
    raises ends it. *)
Fixpoint pages_loop (page_num : nat) (pages : list (Exn + str)) (markdown_text : str)
  : Exn + str :=
  match pages with
  | [] => inr markdown_text
  | inl e :: _ => inl e
  | inr text :: rest => pages_loop (S page_num) rest (page_body markdown_text page_num text)
  end.

(** Lines 187-192, the two handlers: a message, then the exception again;
    any other exception passes through. *)
Definition convert_handler (pdf_path : str) (e : Exn) : M str :=
  match exn_class e with
  | FileNotFoundError =>
      print (lit "Error: PDF file not found at " ++ pdf_path) ;; raise e
  | PdfReadError =>
      print (lit "Error reading PDF file: " ++ exn_str e) ;; raise e
  | _ => raise e
  end.

Definition convert_pdf_to_markdown (pdf_path : str) : M str :=
  try_except
    (pdf_file <- open_rb pdf_path ;;
     match pdf_reader env pdf_file with
     | inl e => raise e
     | inr pages =>
         match pages_loop 0 pages [] with
         | inl e => raise e
         | inr markdown_text => ret markdown_text
         end
     end)
    (convert_handler pdf_path).

(** ** The download orchestrator (lines 194-288) *)

Section Main.

Variable args : Args.

(** Lines 270-279, what the inner [try] guards. *)
Definition convert_and_save (output_pdf_dir output_md_dir : str)
    (each_result : Result) : M unit :=
  if markdown args then
    markdown_text <-
      convert_pdf_to_markdown (output_pdf_dir ++ title each_result ++ lit ".pdf") ;;
    write_text (output_md_dir ++ title each_result ++ lit ".md") markdown_text ;;
    success (lit "Converted " ++ title each_result ++ lit " to Markdown")
  else ret tt.

(** Lines 260-288, the body of the loop over the results of one query. *)
Definition result_body (output_pdf_dir output_md_dir : str)
    (index : nat) (each_result : Result) : M unit :=
  info (lit "Downloading " ++ str_of_int (Z.of_nat index + 1) ++ lit "/"
        ++ str_of_int (max_results args) ++ lit ": " ++ title each_result) ;;
  try_except
    (call_download_pdf each_result output_pdf_dir (title each_result ++ lit ".pdf") ;;
     success (lit "Downloaded " ++ title each_result) ;;
     try_except
       (convert_and_save output_pdf_dir output_md_dir each_result)
       (fun e =>
          error (lit "Error converting " ++ title each_result ++ lit " to Markdown: "
                 ++ exn_str e)))
    (fun e =>
       error (lit "Error downloading " ++ title each_result ++ lit ": " ++ exn_str e)).

(** Line 258, [for index, each_result in enumerate(client.results(search))]. *)
Fixpoint for_results (output_pdf_dir output_md_dir : str)
    (index : nat) (results : Results) : M unit :=
  match results with
  | RDone => ret tt
  | RRaise e => raise e
  | RYield each_result rest =>
      result_body output_pdf_dir output_md_dir index each_result ;;
      for_results output_pdf_dir output_md_dir (S index) rest
  end.

(** Lines 250 and 251. *)
Definition pdf_dir_of (each_query : str) : str :=
  lit "./pdfs/" ++ replace SPACE UNDERSCORE each_query ++ lit "/".

Definition md_dir_of (each_query : str) : str :=
  lit "./mds/" ++ replace SPACE UNDERSCORE each_query ++ lit "/".

(** Lines 238-288, the body of the loop over the queries. *)
Definition query_body (client : Client) (sort_by : SortCriterion) (each_query : str)
  : M unit :=
  let search := {| search_query := each_query;
                   search_max_results := max_results args;
                   search_sort_by := sort_by |} in
  info (lit "Searching for " ++ each_query) ;;
  let output_pdf_dir := pdf_dir_of each_query in
  let output_md_dir := md_dir_of each_query in
  os_makedirs output_pdf_dir true ;;
  os_makedirs output_md_dir true ;;
  for_results output_pdf_dir output_md_dir 0 (client_results env client search).

(** Line 237, [for each_query in args.query_list]. *)
Fixpoint for_queries (client : Client) (sort_by : SortCriterion) (queries : list str)
  : M unit :=
  match queries with
  | [] => ret tt
  | each_query :: rest =>
      query_body client sort_by each_query ;;
      for_queries client sort_by rest
  end.

(** Lines 214-288, [main]; [args] is what [parse_args()] returned. *)
Definition main : M unit :=
  let client := {| client_page_size := page_size args;
                   client_delay_seconds := delay_seconds args;
                   client_num_retries := num_retries args |} in
  let sort_by := match sort_by args with
                 | relevance => Relevance
                 | last_updated_date => LastUpdatedDate
                 | submitted_date => SubmittedDate
                 end in
  for_queries client sort_by (query_list args).

End Main.

End Program.

(** ** Definitions the statements use *)

(** No suffix of the piece being read starts an occurrence of [sep]
    (the invariant of [split_go]). *)
Definition no_match_from (sep cur s : str) : Prop :=
  forall a b, cur = a ++ b -> b <> [] -> startswith sep (b ++ s) = false.

Definition nonempty (s : str) : bool :=
  match s with [] => false | _ :: _ => true end.

(** The paragraph blocks of a page as the specification describes them:
    the candidates between blank lines, each cleaned, the empty ones
    dropped. *)
Definition paragraph_blocks (text : str) : list str :=
  filter (fun b => nonempty b = true) (map clean_paragraph (split [LF; LF] text)).

(** The line [## Page n]. *)
Definition heading_line (n : Z) : str := lit "## Page " ++ str_of_int n.

(** The section of page [n] (counted from 1) as the specification
    describes it: the heading, then each block followed by a blank line. *)
Definition page_section (n : Z) (text : str) : str :=
  [LF] ++ heading_line n ++ [LF; LF]
  ++ concat (map (fun b => b ++ [LF; LF]) (paragraph_blocks text)).

(** The sections of the pages [texts], numbered from [first]. *)
Fixpoint page_sections (first : Z) (texts : list str) : str :=
  match texts with
  | [] => []
  | text :: rest => page_section first text ++ page_sections (first + 1) rest
  end.

(** The lines of a text, [text.split('\n')]. *)
Definition lines (text : str) : list str := split [LF] text.

Definition to_string (s : str) : string := string_of_list_ascii (map ascii_of_N s).

(** The number a non-empty run of decimal digits writes. *)
Definition parse_digits (s : str) : option Z :=
  if nonempty s && forallb is_digit s
  then option_map Z.of_uint (NilEmpty.uint_of_string (to_string s))
  else None.

(** The [N] of a line of the form [## Page N], if the line has that form. *)
Definition page_heading_number (line : str) : option Z :=
  if startswith (lit "## Page ") line
  then parse_digits (drop (length (lit "## Page ")) line)
  else None.

(** The numbers of the page headings of a markdown text, in the order the
    headings appear. *)
Definition heading_numbers (markdown_text : str) : list Z :=
  omap page_heading_number (lines markdown_text).

(** The numbers 1 to [n], in increasing order. *)
Definition one_to (n : nat) : list Z := map (fun i => Z.of_nat i + 1)%Z (seq 0 n).

(** The heading numbers a page contributes: its own, then those of its
    blocks that have the form of a heading themselves. *)
Fixpoint section_numbers (first : Z) (texts : list str) : list Z :=
  match texts with
  | [] => []
  | text :: rest =>
      first :: omap page_heading_number (paragraph_blocks text)
      ++ section_numbers (first + 1) rest
  end.

(** The line a status function prints at the [n]-th reading of the clock. *)
Definition log_line (env : Env) (color : str) (n : nat) (message : str) : str :=
  color ++ strftime_now env n ++ lit " - " ++ message ++ Style_RESET_ALL.

Definition info_color : str := Style_BRIGHT ++ Fore_BLACK ++ Back_CYAN.
Definition success_color : str := Style_BRIGHT ++ Fore_BLACK ++ Back_GREEN.
Definition error_color : str := Style_BRIGHT ++ Fore_WHITE ++ Back_RED.

(** The world after one status line. *)
Definition logged (env : Env) (color message : str) (w : World) : World :=
  {| fs := fs w;
     trace := trace w ++ [EPrint (log_line env color (clock w) message)];
     clock := S (clock w) |}.

(** The world after an event that changes nothing else. *)
Definition emitted (ev : Event) (w : World) : World :=
  {| fs := fs w; trace := trace w ++ [ev]; clock := clock w |}.


(** The sequence that yields [records] and goes on as [tail]. *)
Fixpoint yield_all (records : list Result) (tail : Results) : Results :=
  match records with
  | [] => tail
  | r :: rest => RYield r (yield_all rest tail)
  end.

(** The records a sequence yields. *)
Fixpoint records_of (results : Results) : list Result :=
  match results with
  | RYield r rest => r :: records_of rest
  | _ => []
  end.

(** Every event a computation adds to the trace satisfies [P]. *)
Definition emits {A} (P : Event -> Prop) (m : M A) : Prop :=
  forall w, exists evs, trace (fst (m w)) = trace w ++ evs /\ Forall P evs.

(** The events the loop over the results of one query can add. *)
Definition result_event (args : Args) (output_pdf_dir output_md_dir : str)
    (ev : Event) : Prop :=
  match ev with
  | EPrint _ => True
  | EMakedirs _ _ => False
  | EDownload t dirpath filename =>
      dirpath = output_pdf_dir /\ filename = t ++ lit ".pdf"
  | EOpenRead path =>
      markdown args = true /\ exists t, path = output_pdf_dir ++ t ++ lit ".pdf"
  | EOpenWrite path =>
      markdown args = true /\ exists t, path = output_md_dir ++ t ++ lit ".md"
  end.

(** The events the processing of one query can add. *)
Definition query_event (args : Args) (each_query : str) (ev : Event) : Prop :=
  ev = EMakedirs (pdf_dir_of each_query) true
  \/ ev = EMakedirs (md_dir_of each_query) true
  \/ result_event args (pdf_dir_of each_query) (md_dir_of each_query) ev.

(** The path of a file system event lies under [./pdfs/] or [./mds/]. *)
Definition under_roots (ev : Event) : Prop :=
  match ev with
  | EPrint _ => True
  | EMakedirs name _ =>
      startswith (lit "./pdfs/") name = true \/ startswith (lit "./mds/") name = true
  | EDownload _ dirpath _ => startswith (lit "./pdfs/") dirpath = true
  | EOpenRead path => startswith (lit "./pdfs/") path = true
  | EOpenWrite path => startswith (lit "./mds/") path = true
  end.

Definition is_download (ev : Event) : Prop :=
  match ev with EDownload _ _ _ => True | _ => False end.

(** The program opens no file itself. *)
Definition opens_no_file (ev : Event) : Prop :=
  match ev with EOpenRead _ | EOpenWrite _ => False | _ => True end.

(** [--sort_by] as the search client takes it (lines 226-234). *)
Definition criterion_of (s : SortBy) : SortCriterion :=
  match s with
  | relevance => Relevance
  | last_updated_date => LastUpdatedDate
  | submitted_date => SubmittedDate
  end.

Definition client_of (args : Args) : Client :=
  {| client_page_size := page_size args;
     client_delay_seconds := delay_seconds args;
     client_num_retries := num_retries args |}.

Definition search_of (args : Args) (each_query : str) : Search :=
  {| search_query := each_query;
     search_max_results := max_results args;
     search_sort_by := criterion_of (sort_by args) |}.

(** The events the loop over the results of one query can add, each with
    the record it comes from; [records] are the records the sequence
    yields. *)
Definition record_event (args : Args) (output_pdf_dir output_md_dir : str)
    (records : list Result) (ev : Event) : Prop :=
  match ev with
  | EPrint _ => True
  | EMakedirs _ _ => False
  | EDownload t dirpath filename =>
      exists r, r ∈ records /\ t = title r /\ dirpath = output_pdf_dir
                /\ filename = title r ++ lit ".pdf"
  | EOpenRead path =>
      markdown args = true
      /\ exists r, r ∈ records /\ path = output_pdf_dir ++ title r ++ lit ".pdf"
  | EOpenWrite path =>
      markdown args = true
      /\ exists r, r ∈ records /\ path = output_md_dir ++ title r ++ lit ".md"
  end.

(** The events the processing of one query can add, with the records the
    search yielded. *)
Definition query_record_event (args : Args) (each_query : str) (records : list Result)
    (ev : Event) : Prop :=
  ev = EMakedirs (pdf_dir_of each_query) true
  \/ ev = EMakedirs (md_dir_of each_query) true
  \/ record_event args (pdf_dir_of each_query) (md_dir_of each_query) records ev.

(** The events a run can add: those of a query of the list, with the
    records the search for that query yields. *)
Definition run_event (env : Env) (args : Args) (ev : Event) : Prop :=
  exists q, q ∈ query_list args
    /\ query_record_event args q
         (records_of (client_results env (client_of args) (search_of args q))) ev.

(** The directory name the claim on whitespace describes: every
    whitespace character of the query replaced by an underscore. *)
Definition whitespace_to_underscore (each_query : str) : str :=
  map (fun c => if is_space c then UNDERSCORE else c) each_query.

(** The messages of the result loop. *)
Definition downloading_message (args : Args) (index : nat) (r : Result) : str :=
  lit "Downloading " ++ str_of_int (Z.of_nat index + 1) ++ lit "/"
  ++ str_of_int (max_results args) ++ lit ": " ++ title r.


Definition convert_error_message (r : Result) (e : Exn) : str :=
  lit "Error converting " ++ title r ++ lit " to Markdown: " ++ exn_str e.



(** ** A small run, used by the examples *)

(** A download that stores [data] at [dirpath + filename]. *)
Definition demo_fetch (data : list N) : str -> str -> FS -> FS * option Exn :=
  fun dirpath filename fs0 =>
    ({| dirs := dirs fs0; files := <[ dirpath ++ filename := Bytes data ]> (files fs0) |},
     None).

(** A download that fails and writes nothing. *)
Definition demo_fetch_fails : str -> str -> FS -> FS * option Exn :=
  fun _ _ fs0 =>
    (fs0, Some {| exn_class := OtherException; exn_str := lit "HTTP Error 404: Not Found" |}).

Definition hello_text : str :=
  lit "Hello" ++ [LF] ++ lit "world" ++ [LF; LF] ++ lit "Second  paragraph".

Definition record_A : Result := {| title := lit "A"; download_pdf := demo_fetch [1] |}.
Definition record_B : Result := {| title := lit "B"; download_pdf := demo_fetch_fails |}.
Definition record_C : Result := {| title := lit "C"; download_pdf := demo_fetch [2] |}.

Definition stream_error : Exn :=
  {| exn_class := OtherException; exn_str := lit "Page request resulted in HTTP 503" |}.

(** The file [Bytes [1]] is a one-page PDF with [hello_text]; any other is
    unreadable. The search yields A, B and C, the download of B fails. *)
Definition demo_env : Env :=
  {| strftime_now := fun _ => lit "2024-01-01 00:00:00";
     pdf_reader := fun data =>
       match data with
       | Bytes [1] => inr [inr hello_text]
       | _ => inl {| exn_class := PdfReadError; exn_str := lit "EOF marker not found" |}
       end;
     client_results := fun _ _ => RYield record_A (RYield record_B (RYield record_C RDone));
     text_encode_error := fun _ => None;
     makedirs_error := fun _ _ => None |}.

(** The same, with a search that raises after its first record. *)
Definition demo_env_raising : Env :=
  {| strftime_now := strftime_now demo_env;
     pdf_reader := pdf_reader demo_env;
     client_results := fun _ _ => yield_all [record_A] (RRaise stream_error);
     text_encode_error := text_encode_error demo_env;
     makedirs_error := makedirs_error demo_env |}.

Definition demo_args : Args :=
  {| query_list := [lit "a b"]; markdown := true; page_size := 100;
     delay_seconds := 10; num_retries := 5; max_results := 10;
     sort_by := relevance; output_dir := lit "documents" |}.

Definition demo_args_no_markdown : Args :=
  {| query_list := [lit "a b"]; markdown := false; page_size := 100;
     delay_seconds := 10; num_retries := 5; max_results := 10;
     sort_by := relevance; output_dir := lit "elsewhere" |}.

(** [demo_args] with another [--output_dir]. *)
Definition demo_args_other_dir : Args :=
  {| query_list := [lit "a b"]; markdown := true; page_size := 100;
     delay_seconds := 10; num_retries := 5; max_results := 10;
     sort_by := relevance; output_dir := lit "/tmp/papers" |}.

Definition demo_pdf_dir : str := pdf_dir_of (lit "a b").
Definition demo_md_dir : str := md_dir_of (lit "a b").

Definition empty_world : World :=
  {| fs := {| dirs := ∅; files := ∅ |}; trace := []; clock := 0 |}.

(** A world whose only file is the one-page PDF of [demo_env]. *)
Definition pdf_world : World :=
  {| fs := {| dirs := ∅; files := {[ lit "paper.pdf" := Bytes [1] ]} |};
     trace := []; clock := 0 |}.

(** Another world with the same PDF under another name, next to other
    files, after some output. *)
Definition other_pdf_world : World :=
  {| fs := {| dirs := {[ lit "./pdfs/x/" ]};
              files := {[ lit "./pdfs/x/copy.pdf" := Bytes [1];
                          lit "notes.txt" := Text (lit "to do") ]} |};
     trace := [EPrint (lit "earlier output")]; clock := 7 |}.

(** The claim on page headings as it is stated, for the pages [texts]. *)
Definition headings_count_pages (texts : list str) : Prop :=
  forall markdown_text,
    pages_loop 0 (map inr texts) [] = inr markdown_text ->
    heading_numbers markdown_text = one_to (length texts).

(** The components a relative path comes down to, the last one first, as
    [os.path.normpath] resolves it: empty components and [.] are dropped,
    [..] steps out of the component before it. *)
Definition resolve_step (stack : list str) (component : str) : list str :=
  if bool_decide (component = []) || bool_decide (component = lit ".") then stack
  else if bool_decide (component = lit "..") then
    match stack with
    | [] => [component]
    | top :: below => if bool_decide (top = lit "..") then component :: stack else below
    end
  else component :: stack.

Definition resolve (path : str) : list str :=
  fold_left resolve_step (split [47] path) [].

(** The path is relative and lies under the directory [pdfs] or [mds] of
    the working directory. *)
Definition under_fixed_roots (path : str) : bool :=
  negb (startswith (lit "/") path)
  && match last (resolve path) with
     | Some root => bool_decide (root = lit "pdfs") || bool_decide (root = lit "mds")
     | None => false
     end.

(** [os.path.join(a, b)] of two components. *)
Definition os_path_join (a b : str) : str :=
  if startswith (lit "/") b then b
  else match last a with
       | None => b
       | Some c => if c =? 47 then a ++ b else a ++ lit "/" ++ b
       end.

(** The file an event writes: a download stores the PDF at
    [os.path.join(dirpath, filename)], [open(path, "w")] writes [path]. *)
Definition written_file (ev : Event) : option str :=
  match ev with
  | EDownload _ dirpath filename => Some (os_path_join dirpath filename)
  | EOpenWrite path => Some path
  | _ => None
  end.

(** The file the event writes, if it writes one, lies under [pdfs] or
    [mds]. *)
Definition written_under_roots (ev : Event) : Prop :=
  match written_file ev with
  | Some path => under_fixed_roots path = true
  | None => True
  end.

(** The claim on the fixed roots as it is stated, for one run. *)
Definition run_stays_under_roots (env : Env) (args : Args) (w : World) : Prop :=
  forall evs, trace (fst (main env args w)) = trace w ++ evs ->
              Forall written_under_roots evs.

(** The query [..]. *)
Definition dotdot_args : Args :=
  {| query_list := [lit ".."]; markdown := true; page_size := 100;
     delay_seconds := 10; num_retries := 5; max_results := 10;
     sort_by := relevance; output_dir := lit "documents" |}.

(** A world in which [./pdfs/a_b] is a regular file. *)
Definition blocked_world : World :=
  {| fs := {| dirs := ∅; files := {[ lit "./pdfs/a_b" := Text (lit "in the way") ]} |};
     trace := []; clock := 0 |}.

(** The claim on directory names as it is stated, for one query. *)
Definition dir_replaces_whitespace (each_query : str) : Prop :=
  pdf_dir_of each_query = lit "./pdfs/" ++ whitespace_to_underscore each_query ++ lit "/"
  /\ md_dir_of each_query = lit "./mds/" ++ whitespace_to_underscore each_query ++ lit "/".

(** ** Definitions for the further properties *)

(** The four status functions, by severity. *)
Inductive Level : Type := LInfo | LSuccess | LWarning | LError.

Definition warning_color : str := Style_BRIGHT ++ Fore_BLACK ++ Back_YELLOW.

Definition level_color (level : Level) : str :=
  match level with
  | LInfo => info_color
  | LSuccess => success_color
  | LWarning => warning_color
  | LError => error_color
  end.

Definition status (env : Env) (level : Level) : str -> M unit :=
  match level with
  | LInfo => info env
  | LSuccess => success env
  | LWarning => warning env
  | LError => error env
  end.

(** The text before the first paragraph of page [n]: its heading between
    line feeds. *)
Definition heading_block (n : Z) : str := [LF] ++ heading_line n ++ [LF; LF].

(** The lines the sections of the pages [texts] are made of: per page an
    empty line, the heading, an empty line, then each paragraph block with
    an empty line after it. *)
Fixpoint section_lines (first : Z) (texts : list str) : list str :=
  match texts with
  | [] => []
  | text :: rest =>
      [] :: heading_line first :: []
      :: flat_map (fun b => [b; []]) (paragraph_blocks text)
      ++ section_lines (first + 1) rest
  end.

(** The download attempts among some events: title, directory and file
    name of each, in order. *)
Definition attempts (evs : list Event) : list (str * str * str) :=
  omap (fun ev => match ev with
                  | EDownload t dirpath filename => Some (t, dirpath, filename)
                  | _ => None
                  end) evs.

(** The [os.makedirs] calls among some events, in order. *)
Definition makedirs_calls (evs : list Event) : list str :=
  omap (fun ev => match ev with EMakedirs name _ => Some name | _ => None end) evs.

(** An event that is neither a download attempt nor a directory creation. *)
Definition quiet (ev : Event) : Prop :=
  match ev with
  | EDownload _ _ _ | EMakedirs _ _ => False
  | _ => True
  end.

(** The file system after the downloads of [records] into [dirpath], one
    after the other. *)
Definition downloads_fold (dirpath : str) (records : list Result) (f : FS) : FS :=
  fold_left (fun f r => fst (download_pdf r dirpath (title r ++ lit ".pdf") f)) records f.

(** The two directories of each query, in the order of the queries. *)
Definition query_dirs (queries : list str) : list str :=
  flat_map (fun q => [pdf_dir_of q; md_dir_of q]) queries.

(** What [convert_pdf_to_markdown] prints before it raises [e] again. *)
Definition convert_messages (pdf_path : str) (e : Exn) : list Event :=
  match exn_class e with
  | FileNotFoundError => [EPrint (lit "Error: PDF file not found at " ++ pdf_path)]
  | PdfReadError => [EPrint (lit "Error reading PDF file: " ++ exn_str e)]
  | _ => []
  end.

(** An event that opens no file for writing. *)
Definition writes_nothing (ev : Event) : Prop :=
  match ev with EOpenWrite _ => False | _ => True end.

(** A world in which the two directories of the query [a b] exist. *)
Definition dirs_world : World :=
  {| fs := {| dirs := {[ demo_pdf_dir; demo_md_dir ]}; files := ∅ |};
     trace := []; clock := 0 |}.

(** The search that finds nothing. *)
Definition demo_env_no_results : Env :=
  {| strftime_now := strftime_now demo_env;
     pdf_reader := pdf_reader demo_env;
     client_results := fun _ _ => RDone;
     text_encode_error := text_encode_error demo_env;
     makedirs_error := makedirs_error demo_env |}.

Arguments page_section : simpl never.
Arguments heading_line : simpl never.
Arguments page_body : simpl never.
Arguments clean_paragraph : simpl never.
Arguments page_heading_number : simpl never.

(** ** Facts about strings *)

Section StrFacts.

Lemma startswith_app p s : startswith p (p ++ s) = true.
Proof.
  induction p as [|a p IH]; simpl; [done|].
  rewrite N.eqb_refl, IH. reflexivity.
Qed.

Lemma startswith_inv p s : startswith p s = true -> s = p ++ drop (length p) s.
Proof.
  revert s; induction p as [|a p IH]; intros [|b s]; simpl; try done.
  intros [Hab Hps]%andb_true_iff.
  apply N.eqb_eq in Hab as ->. f_equal. by apply IH.
Qed.

Lemma contains_occurs p s :
  contains p s = true -> exists a b, s = a ++ p ++ b.
Proof.
  induction s as [|c s IH]; simpl.
  - rewrite orb_false_r. intros H%startswith_inv. exists [], (drop (length p) []).
    by rewrite <- H.
  - intros [H|H]%orb_true_iff.
    + apply startswith_inv in H. by exists [], (drop (length p) (c :: s)).
    + destruct (IH H) as (a & b & ->). by exists (c :: a), b.
Qed.

Lemma occurs_contains a p b : contains p (a ++ p ++ b) = true.
Proof.
  induction a as [|c a IH]; simpl.
  - destruct (p ++ b) eqn:E; simpl.
    + destruct p; [done | discriminate].
    + by rewrite <- E, startswith_app.
  - by rewrite IH, orb_true_r.
Qed.

Lemma split_go_nonnil sep k cur s : split_go sep k cur s <> [].
Proof.
  revert k cur; induction s as [|c s IH]; intros k cur; simpl; [done|].
  destruct k; [|apply IH]. destruct (startswith sep (c :: s)); [done | apply IH].
Qed.

Lemma join_cons sep p l : l <> [] -> join sep (p :: l) = p ++ sep ++ join sep l.
Proof. by destruct l. Qed.

(** Joining the pieces with the separator gives the text back. *)
Lemma join_split_go sep s k cur :
  sep <> [] -> join sep (split_go sep k cur s) = cur ++ drop k s.
Proof.
  intros Hsep. revert k cur; induction s as [|c s IH]; intros k cur.
  - simpl. by rewrite drop_nil, app_nil_r.
  - simpl. destruct k as [|k]; [|by rewrite IH].
    destruct (startswith sep (c :: s)) eqn:E.
    + rewrite join_cons by apply split_go_nonnil.
      rewrite IH. simpl. f_equal.
      apply startswith_inv in E. destruct sep as [|a sep]; [done|].
      simpl in *. rewrite Nat.sub_0_r. exact (eq_sym E).
    + rewrite IH. simpl. by rewrite <- app_assoc.
Qed.

Lemma join_split sep s : sep <> [] -> join sep (split sep s) = s.
Proof. intros H. unfold split. by rewrite join_split_go. Qed.

Lemma no_match_from_closed sep cur s :
  sep <> [] -> no_match_from sep cur s -> contains sep cur = false.
Proof.
  intros Hsep Hinv. destruct (contains sep cur) eqn:E; [|done].
  destruct (contains_occurs _ _ E) as (a & b & ->).
  specialize (Hinv a (sep ++ b) eq_refl).
  rewrite <- app_assoc, startswith_app in Hinv.
  apply Hinv. by destruct sep.
Qed.

Lemma no_match_from_snoc sep cur c s :
  no_match_from sep cur (c :: s) -> startswith sep (c :: s) = false ->
  no_match_from sep (cur ++ [c]) s.
Proof.
  intros Hinv Hc a b Hab Hb.
  destruct (exists_last Hb) as (b0 & c' & ->).
  rewrite app_assoc in Hab. apply app_inj_tail in Hab as [-> <-].
  rewrite <- app_assoc. simpl.
  destruct b0 as [|x b0]; [exact Hc|].
  by apply (Hinv a (x :: b0)).
Qed.

Lemma split_go_pieces sep s :
  sep <> [] ->
  (forall cur, no_match_from sep cur s ->
     forall p, p ∈ split_go sep 0 cur s -> contains sep p = false)
  /\ (forall k p, p ∈ split_go sep k [] s -> contains sep p = false).
Proof.
  intros Hsep. induction s as [|c s [IH1 IH2]].
  - assert (H1 : forall cur, no_match_from sep cur [] ->
       forall p, p ∈ split_go sep 0 cur [] -> contains sep p = false).
    { intros cur Hinv p Hp. simpl in Hp. apply list_elem_of_singleton in Hp as ->.
      by apply (no_match_from_closed sep cur []). }
    split; [exact H1|]. intros k p Hp. simpl in Hp.
    apply (H1 []); [|exact Hp]. intros a b Hab Hb. by destruct a, b.
  - assert (H1 : forall cur, no_match_from sep cur (c :: s) ->
       forall p, p ∈ split_go sep 0 cur (c :: s) -> contains sep p = false).
    { intros cur Hinv p Hp. simpl in Hp.
      destruct (startswith sep (c :: s)) eqn:E.
      - apply elem_of_cons in Hp as [->|Hp].
        + by apply (no_match_from_closed sep cur (c :: s)).
        + by apply (IH2 _ _ Hp).
      - apply (IH1 (cur ++ [c])); [|exact Hp]. by apply no_match_from_snoc. }
    split; [exact H1|]. intros [|k] p Hp.
    + apply (H1 []); [|exact Hp]. intros a b Hab Hb. by destruct a, b.
    + simpl in Hp. by apply (IH2 k).
Qed.

(** No piece of a split contains the separator. *)
Lemma split_pieces sep s p :
  sep <> [] -> p ∈ split sep s -> contains sep p = false.
Proof. intros Hsep Hp. by apply (proj2 (split_go_pieces sep s Hsep) 0%nat). Qed.

End StrFacts.

(** ** Facts about [replace] and [strip] *)

Section CleanFacts.

Lemma replace_length old new s : length (replace old new s) = length s.
Proof. unfold replace. apply length_map. Qed.

Lemma replace_lookup old new s i :
  replace old new s !! i = (fun c => if c =? old then new else c) <$> s !! i.
Proof. unfold replace. apply list_lookup_fmap. Qed.

Lemma replace_not_elem old new s : old <> new -> old ∉ replace old new s.
Proof.
  intros Hne Hin. unfold replace in Hin.
  apply list_elem_of_fmap in Hin as (c & Hc & _).
  destruct (N.eqb_spec c old); congruence.
Qed.

Lemma lstrip_spec s :
  exists l, s = l ++ lstrip s /\ forallb is_space l = true
            /\ (forall c, head (lstrip s) = Some c -> is_space c = false).
Proof.
  induction s as [|c s (l & Hs & Hl & Hh)]; simpl.
  - by exists [].
  - destruct (is_space c) eqn:E.
    + exists (c :: l). simpl. rewrite E, Hl. split; [by f_equal | done].
    + exists []. simpl. split; [done|]. split; [done|]. by intros ? [= <-].
Qed.

Lemma lstrip_all_space s : forallb is_space s = true -> lstrip s = [].
Proof.
  induction s as [|c s IH]; simpl; [done|].
  intros [-> H]%andb_true_iff. by apply IH.
Qed.

Lemma head_app_nonnil (a b : str) c : head a = Some c -> head (a ++ b) = Some c.
Proof. by destruct a. Qed.

Lemma last_rev_head (a : str) : last (rev a) = head a.
Proof. destruct a as [|c a]; simpl; [done|]. by rewrite last_snoc. Qed.

(** [strip] cuts a run of whitespace from each end and stops at the first
    character that is not whitespace. *)
Lemma strip_spec s :
  exists l r, s = l ++ strip s ++ r
    /\ forallb is_space l = true /\ forallb is_space r = true
    /\ (forall c, head (strip s) = Some c -> is_space c = false)
    /\ (forall c, last (strip s) = Some c -> is_space c = false).
Proof.
  unfold strip, rstrip.
  destruct (lstrip_spec s) as (l & Hs & Hl & Hh).
  destruct (lstrip_spec (rev (lstrip s))) as (r & Hr & Hrs & Hrh).
  set (m := lstrip s) in *. set (t := lstrip (rev m)) in *.
  assert (Hm : m = rev t ++ rev r).
  { rewrite <- (rev_involutive m), Hr, rev_app_distr. done. }
  exists l, (rev r). split; [by rewrite <- Hm|].
  split; [done|]. split.
  { rewrite forallb_forall in *. intros x Hx. apply Hrs. by apply in_rev. }
  split.
  - intros c Hc. apply Hh. rewrite Hm. by apply head_app_nonnil.
  - intros c Hc. apply Hrh. by rewrite <- last_rev_head.
Qed.

Lemma strip_all_space s : forallb is_space s = true -> strip s = [].
Proof. intros H. unfold strip, rstrip. by rewrite (lstrip_all_space s H). Qed.

Lemma strip_subseteq s c : c ∈ strip s -> c ∈ s.
Proof.
  destruct (strip_spec s) as (l & r & Hs & _). intros Hc.
  rewrite Hs, !elem_of_app. tauto.
Qed.

Lemma replace_all_space s :
  forallb is_space s = true -> forallb is_space (replace LF SPACE s) = true.
Proof.
  induction s as [|c s IH]; simpl; [done|].
  intros [Hc Hs]%andb_true_iff. rewrite (IH Hs), andb_true_r.
  destruct (c =? LF); [reflexivity | exact Hc].
Qed.

Lemma clean_paragraph_no_LF p : LF ∉ clean_paragraph p.
Proof.
  intros H%strip_subseteq. by apply (replace_not_elem LF SPACE p).
Qed.

Lemma clean_paragraph_all_space p :
  forallb is_space p = true -> clean_paragraph p = [].
Proof. intros H. apply strip_all_space. by apply replace_all_space. Qed.

End CleanFacts.

(** ** The formatter's loops in closed form *)

Section FormatFacts.

Lemma paragraph_loop_blocks ps md :
  fold_left paragraph_body ps md
  = md ++ concat (map (fun b => b ++ [LF; LF])
                    (filter (fun b => nonempty b = true) (map clean_paragraph ps))).
Proof.
  revert md; induction ps as [|p ps IH]; intros md; simpl.
  - by rewrite app_nil_r.
  - rewrite IH. unfold paragraph_body.
    destruct (clean_paragraph p) as [|c b] eqn:E.
    + by rewrite filter_cons_False.
    + rewrite filter_cons_True by done. simpl.
      by rewrite <- app_assoc.
Qed.

Lemma page_body_section md page_num text :
  page_body md page_num text = md ++ page_section (Z.of_nat page_num + 1) text.
Proof.
  unfold page_body, page_section, paragraph_blocks, heading_line.
  rewrite paragraph_loop_blocks. by rewrite <- !app_assoc.
Qed.

Lemma pages_loop_sections texts page_num md :
  pages_loop page_num (map inr texts) md
  = inr (md ++ page_sections (Z.of_nat page_num + 1) texts).
Proof.
  revert page_num md; induction texts as [|t texts IH]; intros page_num md; simpl.
  - by rewrite app_nil_r.
  - rewrite IH, page_body_section, <- app_assoc.
    by replace (Z.of_nat (S page_num) + 1)%Z with (Z.of_nat page_num + 1 + 1)%Z by lia.
Qed.

End FormatFacts.

(** ** Lines and page headings of the output *)

Section LineFacts.

Lemma split_LF_last a cur : LF ∉ a -> split_go [LF] 0 cur a = [cur ++ a].
Proof.
  revert cur; induction a as [|c a IH]; intros cur Ha; cbn [split_go startswith].
  - by rewrite app_nil_r.
  - apply not_elem_of_cons in Ha as [Hc Ha]. rewrite andb_true_r.
    destruct (N.eqb_spec LF c) as [E|_]; [by destruct Hc|].
    rewrite IH by done. by rewrite <- app_assoc.
Qed.

Lemma split_LF_cut a b cur :
  LF ∉ a -> split_go [LF] 0 cur (a ++ LF :: b) = (cur ++ a) :: split_go [LF] 0 [] b.
Proof.
  revert cur; induction a as [|c a IH]; intros cur Ha; cbn [split_go startswith app].
  - rewrite N.eqb_refl, app_nil_r. reflexivity.
  - apply not_elem_of_cons in Ha as [Hc Ha]. rewrite andb_true_r.
    destruct (N.eqb_spec LF c) as [E|_]; [by destruct Hc|].
    rewrite IH by done. by rewrite <- app_assoc.
Qed.

Lemma lines_cut a b : LF ∉ a -> lines (a ++ LF :: b) = a :: lines b.
Proof. intros Ha. unfold lines, split. by rewrite split_LF_cut. Qed.

Lemma heading_numbers_nil : heading_numbers [] = [].
Proof. reflexivity. Qed.

Lemma heading_numbers_LF b : heading_numbers (LF :: b) = heading_numbers b.
Proof.
  unfold heading_numbers.
  change (LF :: b) with ([] ++ LF :: b).
  rewrite (lines_cut [] b) by apply not_elem_of_nil.
  reflexivity.
Qed.

Lemma heading_numbers_block a b :
  LF ∉ a ->
  heading_numbers (a ++ [LF; LF] ++ b)
  = omap page_heading_number [a] ++ heading_numbers b.
Proof.
  intros Ha. rewrite <- (heading_numbers_LF b).
  unfold heading_numbers at 1.
  change (a ++ [LF; LF] ++ b) with (a ++ LF :: LF :: b).
  rewrite (lines_cut a (LF :: b)) by done. unfold heading_numbers. simpl.
  by destruct (page_heading_number a).
Qed.

Lemma heading_numbers_blocks bs rest :
  Forall (fun b => LF ∉ b) bs ->
  heading_numbers (concat (map (fun b => b ++ [LF; LF]) bs) ++ rest)
  = omap page_heading_number bs ++ heading_numbers rest.
Proof.
  induction 1 as [|b bs Hb _ IH]; simpl; [done|].
  rewrite <- !app_assoc.
  change (b ++ [LF; LF] ++ ?x) with (b ++ [LF; LF] ++ x).
  rewrite (heading_numbers_block b) by done. rewrite IH. simpl.
  by destruct (page_heading_number b).
Qed.

Lemma paragraph_blocks_no_LF text : Forall (fun b => LF ∉ b) (paragraph_blocks text).
Proof.
  unfold paragraph_blocks. apply Forall_forall. intros b Hb.
  apply list_elem_of_filter in Hb as [_ Hb].
  apply list_elem_of_fmap in Hb as (p & -> & _). apply clean_paragraph_no_LF.
Qed.

(** Decimal rendering. *)

Lemma to_string_lit s : to_string (lit s) = s.
Proof.
  unfold to_string, lit. rewrite map_map.
  rewrite (map_ext _ id), map_id by apply ascii_N_embedding.
  apply string_of_list_ascii_of_string.
Qed.

Lemma digits_of_uint d : forallb is_digit (lit (NilEmpty.string_of_uint d)) = true.
Proof. induction d; simpl; try done; exact IHd. Qed.

Lemma nonempty_of_uint d : d <> Decimal.Nil -> nonempty (lit (NilEmpty.string_of_uint d)) = true.
Proof. by destruct d. Qed.

Lemma parse_digits_str_of_int p : parse_digits (str_of_int (Z.pos p)) = Some (Z.pos p).
Proof.
  unfold parse_digits, str_of_int. simpl.
  rewrite nonempty_of_uint by apply DecimalPos.Unsigned.to_uint_nonnil.
  rewrite digits_of_uint, to_string_lit, NilEmpty.usu. simpl.
  unfold Z.of_uint. by rewrite DecimalPos.Unsigned.of_to.
Qed.

Lemma str_of_int_inj a b : str_of_int a = str_of_int b -> a = b.
Proof.
  intros H. apply (f_equal to_string) in H. unfold str_of_int in H.
  rewrite !to_string_lit in H.
  apply (f_equal NilEmpty.int_of_string) in H. rewrite !NilEmpty.isi in H.
  injection H as H. apply (f_equal Z.of_int) in H.
  by rewrite !DecimalZ.of_to in H.
Qed.

Lemma digit_not_LF s : forallb is_digit s = true -> LF ∉ s.
Proof.
  intros H Hin. rewrite forallb_forall in H.
  by specialize (H LF (proj1 (list_elem_of_In _ _) Hin)).
Qed.

Lemma heading_line_no_LF n : (0 < n)%Z -> LF ∉ heading_line n.
Proof.
  intros Hn. unfold heading_line. rewrite elem_of_app. intros [H|H].
  - vm_compute in H. repeat (apply elem_of_cons in H as [H|H]; [discriminate|]).
    by apply not_elem_of_nil in H.
  - destruct n as [|p|p]; try lia. revert H. apply digit_not_LF.
    unfold str_of_int. simpl. apply digits_of_uint.
Qed.

Lemma heading_line_number n : (0 < n)%Z -> page_heading_number (heading_line n) = Some n.
Proof.
  intros Hn. unfold page_heading_number, heading_line.
  rewrite startswith_app, drop_app_length.
  destruct n as [|p|p]; try lia. apply parse_digits_str_of_int.
Qed.

Lemma omap_heading_line n :
  (0 < n)%Z -> omap page_heading_number [heading_line n] = [n].
Proof.
  intros Hn. change ([heading_line n]) with (heading_line n :: []).
  unfold omap. cbn [list_omap]. by rewrite heading_line_number.
Qed.

(** The heading numbers of the sections: one per page, followed by those
    of the page's own blocks that look like headings. *)
Lemma heading_numbers_sections texts first rest :
  (0 < first)%Z ->
  heading_numbers (page_sections first texts ++ rest)
  = section_numbers first texts ++ heading_numbers rest.
Proof.
  revert first; induction texts as [|t texts IH]; intros first Hf; [done|].
  cbn [page_sections section_numbers]. unfold page_section.
  rewrite <- !app_assoc.
  change ([LF] ++ ?x) with (LF :: x).
  rewrite heading_numbers_LF.
  rewrite heading_numbers_block by (by apply heading_line_no_LF).
  rewrite omap_heading_line by done.
  rewrite heading_numbers_blocks by apply paragraph_blocks_no_LF.
  rewrite IH by lia. cbn [app]. by rewrite <- app_assoc.
Qed.

Lemma section_numbers_plain texts first :
  Forall (fun text => Forall (fun b => page_heading_number b = None)
                        (paragraph_blocks text)) texts ->
  section_numbers first texts
  = map (fun i => first + Z.of_nat i)%Z (seq 0 (length texts)).
Proof.
  intros H. revert first; induction H as [|t texts Ht _ IH]; intros first; simpl; [done|].
  f_equal; [lia|].
  assert (omap page_heading_number (paragraph_blocks t) = []) as ->.
  { induction Ht as [|b bs Hb _ IHb]; simpl; [done|]. by rewrite Hb. }
  simpl. rewrite IH, <- seq_shift, map_map. apply map_ext. intros i. lia.
Qed.

End LineFacts.

(** ** Running the status reporter and the file system calls *)

Section RunFacts.

Variable env : Env.

Lemma info_run message w :
  info env message w = (logged env info_color message w, inr tt).
Proof. reflexivity. Qed.

Lemma success_run message w :
  success env message w = (logged env success_color message w, inr tt).
Proof. reflexivity. Qed.

Lemma error_run message w :
  error env message w = (logged env error_color message w, inr tt).
Proof. reflexivity. Qed.

Lemma call_download_pdf_run r dirpath filename w :
  call_download_pdf r dirpath filename w
  = match download_pdf r dirpath filename (fs w) with
    | (fs', Some e) => (with_fs fs' (emitted (EDownload (title r) dirpath filename) w), inl e)
    | (fs', None) => (with_fs fs' (emitted (EDownload (title r) dirpath filename) w), inr tt)
    end.
Proof. reflexivity. Qed.

Lemma os_makedirs_present name w :
  name ∈ dirs (fs w) ->
  os_makedirs env name true w = (emitted (EMakedirs name true) w, inr tt).
Proof.
  intros H. unfold os_makedirs, bind, emit. cbn [fs trace clock].
  by rewrite decide_True.
Qed.

(** Whatever [os.makedirs] does, it is recorded, and it changes nothing
    but the set of directories, to which it may add [name]. *)
Lemma os_makedirs_frame name exist_ok w :
  trace (fst (os_makedirs env name exist_ok w)) = trace w ++ [EMakedirs name exist_ok]
  /\ clock (fst (os_makedirs env name exist_ok w)) = clock w
  /\ files (fs (fst (os_makedirs env name exist_ok w))) = files (fs w)
  /\ dirs (fs w) ⊆ dirs (fs (fst (os_makedirs env name exist_ok w)))
  /\ dirs (fs (fst (os_makedirs env name exist_ok w))) ⊆ {[ name ]} ∪ dirs (fs w).
Proof.
  assert (Hsame : forall (w' : World) (r : Exn + unit),
    trace w' = trace w ++ [EMakedirs name exist_ok] -> clock w' = clock w ->
    fs w' = fs w ->
    trace (fst (w', r)) = trace w ++ [EMakedirs name exist_ok]
    /\ clock (fst (w', r)) = clock w
    /\ files (fs (fst (w', r))) = files (fs w)
    /\ dirs (fs w) ⊆ dirs (fs (fst (w', r)))
    /\ dirs (fs (fst (w', r))) ⊆ {[ name ]} ∪ dirs (fs w)).
  { intros w' r Ht Hc Hfs. cbn [fst]. rewrite Hfs. split_and!; try done.
    apply union_subseteq_r. }
  unfold os_makedirs, bind, emit. cbn [fs trace clock].
  case_decide; [destruct exist_ok; by apply Hsame|].
  destruct (existsb _ _); [by apply Hsame|].
  destruct (_ || _); [by apply Hsame|].
  destruct (makedirs_error env name _); [by apply Hsame|].
  cbn [fst with_fs fs trace clock dirs files]. split_and!; try done.
  apply union_subseteq_r.
Qed.

Lemma os_makedirs_trace name exist_ok w :
  trace (fst (os_makedirs env name exist_ok w)) = trace w ++ [EMakedirs name exist_ok].
Proof. apply os_makedirs_frame. Qed.

(** When it returns, the directory is there. *)
Lemma os_makedirs_returns name exist_ok w w' u :
  os_makedirs env name exist_ok w = (w', inr u) -> name ∈ dirs (fs w').
Proof.
  unfold os_makedirs, bind, emit. cbn [fs trace clock].
  case_decide; [destruct exist_ok; intros; by simplify_eq|].
  destruct (existsb _ _); [done|].
  destruct (_ || _); [done|].
  destruct (makedirs_error env name _); [done|].
  intros; simplify_eq. cbn. apply elem_of_union_l. by apply elem_of_singleton.
Qed.

(** When it raises, nothing but the trace has changed. *)
Lemma os_makedirs_raises name exist_ok w w' e :
  os_makedirs env name exist_ok w = (w', inl e) ->
  w' = emitted (EMakedirs name exist_ok) w.
Proof.
  unfold os_makedirs, bind, emit. cbn [fs trace clock].
  case_decide; [destruct exist_ok; intros; by simplify_eq|].
  destruct (existsb _ _); [intros; by simplify_eq|].
  destruct (_ || _); [intros; by simplify_eq|].
  destruct (makedirs_error env name _); [intros; by simplify_eq | done].
Qed.

(** A regular file of the directory's name stops it, with or without the
    slash after the name. *)
Lemma os_makedirs_file name exist_ok w :
  is_Some (files (fs w) !! rstrip_slash name) -> name ∉ dirs (fs w) ->
  exists e, os_makedirs env name exist_ok w = (emitted (EMakedirs name exist_ok) w, inl e).
Proof.
  intros Hf Hd. unfold os_makedirs, bind, emit. cbn [fs trace clock].
  rewrite decide_False by done.
  destruct (existsb _ _); [by eexists|].
  rewrite (bool_decide_eq_true_2 _ Hf). cbn [orb]. by eexists.
Qed.

End RunFacts.

(** ** What a computation adds to the trace *)

Section EmitFacts.

Context {A B : Type}.

Lemma emits_ret P (a : A) : emits P (ret a).
Proof. intros w. exists []. by rewrite app_nil_r. Qed.

Lemma emits_raise P e : emits P (@raise A e).
Proof. intros w. exists []. by rewrite app_nil_r. Qed.

Lemma emits_bind P (m : M A) (k : A -> M B) :
  emits P m -> (forall a, emits P (k a)) -> emits P (bind m k).
Proof.
  intros Hm Hk w. unfold bind.
  destruct (Hm w) as (evs & Ht & Hevs). destruct (m w) as [w' [e|a]]; simpl in *.
  - by exists evs.
  - destruct (Hk a w') as (evs' & Ht' & Hevs').
    exists (evs ++ evs'). rewrite Ht', Ht, app_assoc. split; [done|].
    by apply Forall_app.
Qed.

Lemma emits_try P (m : M A) (handler : Exn -> M A) :
  emits P m -> (forall e, emits P (handler e)) -> emits P (try_except m handler).
Proof.
  intros Hm Hh w. unfold try_except.
  destruct (Hm w) as (evs & Ht & Hevs). destruct (m w) as [w' [e|a]]; simpl in *.
  - destruct (Hh e w') as (evs' & Ht' & Hevs').
    exists (evs ++ evs'). rewrite Ht', Ht, app_assoc. split; [done|].
    by apply Forall_app.
  - by exists evs.
Qed.

Lemma emits_silent P (m : M A) :
  (forall w, trace (fst (m w)) = trace w) -> emits P m.
Proof. intros H w. exists []. by rewrite H, app_nil_r. Qed.

Lemma emits_mono (P Q : Event -> Prop) (m : M A) :
  (forall ev, P ev -> Q ev) -> emits P m -> emits Q m.
Proof.
  intros HPQ Hm w. destruct (Hm w) as (evs & Ht & Hevs).
  exists evs. split; [done|]. by apply (Forall_impl P).
Qed.

End EmitFacts.

Section EmitProgram.

Variable env : Env.
Variable P : Event -> Prop.
Hypothesis P_print : forall line, P (EPrint line).

Lemma emits_emit ev : P ev -> emits P (emit ev).
Proof. intros H w. exists [ev]. split; [done|]. by apply Forall_singleton. Qed.

Lemma emits_log message color : emits P (print_message_with_timestamp env message color).
Proof. intros w. eexists [_]. split; [reflexivity|]. by apply Forall_singleton. Qed.

Lemma emits_os_makedirs name exist_ok :
  P (EMakedirs name exist_ok) -> emits P (os_makedirs env name exist_ok).
Proof.
  intros H w. exists [EMakedirs name exist_ok].
  split; [apply os_makedirs_trace | by apply Forall_singleton].
Qed.

Lemma emits_open_rb path : P (EOpenRead path) -> emits P (open_rb path).
Proof.
  intros H. apply emits_bind; [by apply emits_emit|]. intros _.
  apply emits_silent. intros w. destruct (files (fs w) !! path); [done|].
  by case_decide.
Qed.

Lemma emits_write_text path text : P (EOpenWrite path) -> emits P (write_text env path text).
Proof.
  intros H. apply emits_bind; [by apply emits_emit|]. intros _.
  apply emits_silent. intros w. repeat case_decide; try done.
  by destruct (text_encode_error env text).
Qed.

Lemma emits_call_download_pdf r dirpath filename :
  P (EDownload (title r) dirpath filename) ->
  emits P (call_download_pdf r dirpath filename).
Proof.
  intros H. apply emits_bind; [by apply emits_emit|]. intros _.
  apply emits_silent. intros w.
  by destruct (download_pdf r dirpath filename (fs w)) as [? [?|]].
Qed.

Lemma emits_convert_pdf_to_markdown pdf_path :
  P (EOpenRead pdf_path) -> emits P (convert_pdf_to_markdown env pdf_path).
Proof.
  intros H. apply emits_try.
  - apply emits_bind; [by apply emits_open_rb|]. intros pdf_file.
    destruct (pdf_reader env pdf_file) as [e|pages]; [apply emits_raise|].
    destruct (pages_loop 0 pages []); [apply emits_raise | apply emits_ret].
  - intros e. unfold convert_handler. destruct (exn_class e); try apply emits_raise;
      (apply emits_bind; [by apply emits_emit | intros _; apply emits_raise]).
Qed.

End EmitProgram.

(** ** The loops of the orchestrator *)

Section LoopFacts.

Variable env : Env.
Variable args : Args.

Lemma emits_convert_and_save d m r :
  emits (result_event args d m) (convert_and_save env args d m r).
Proof.
  unfold convert_and_save. destruct (markdown args) eqn:Hmd; [|apply emits_ret].
  apply emits_bind.
  { apply emits_convert_pdf_to_markdown; [done|]. simpl. eauto. }
  intros markdown_text. apply emits_bind.
  { apply emits_write_text. simpl. eauto. }
  intros _. by apply emits_log.
Qed.

Lemma emits_result_body d m index r :
  emits (result_event args d m) (result_body env args d m index r).
Proof.
  unfold result_body. apply emits_bind; [by apply emits_log|]. intros _.
  apply emits_try; [|intros e; by apply emits_log].
  apply emits_bind; [by apply emits_call_download_pdf|]. intros _.
  apply emits_bind; [by apply emits_log|]. intros _.
  apply emits_try; [apply emits_convert_and_save|]. intros e. by apply emits_log.
Qed.

Lemma emits_for_results d m results index :
  emits (result_event args d m) (for_results env args d m index results).
Proof.
  revert index; induction results as [|r rest IH|e]; intros index; simpl.
  - apply emits_ret.
  - apply emits_bind; [apply emits_result_body | intros _; apply IH].
  - apply emits_raise.
Qed.

Lemma record_event_mono d m records records' ev :
  (forall r, r ∈ records -> r ∈ records') ->
  record_event args d m records ev -> record_event args d m records' ev.
Proof.
  intros Hsub. destruct ev as [line|name ok|t dp fn|path|path]; cbn [record_event]; try done.
  - intros (r & Hr & H). exists r. split; [by apply Hsub | done].
  - intros (Hmd & r & Hr & H). split; [done|]. exists r. split; [by apply Hsub | done].
  - intros (Hmd & r & Hr & H). split; [done|]. exists r. split; [by apply Hsub | done].
Qed.

Lemma emits_result_body_record d m index r :
  emits (record_event args d m [r]) (result_body env args d m index r).
Proof.
  assert (Hr : r ∈ [r]) by (by left).
  unfold result_body. apply emits_bind; [by apply emits_log|]. intros _.
  apply emits_try; [|intros e; by apply emits_log].
  apply emits_bind.
  { apply emits_call_download_pdf. cbn [record_event]. by exists r. }
  intros _. apply emits_bind; [by apply emits_log|]. intros _.
  apply emits_try; [|intros e; by apply emits_log].
  unfold convert_and_save. destruct (markdown args) eqn:Hmd; [|apply emits_ret].
  apply emits_bind.
  { apply emits_convert_pdf_to_markdown; [done|]. cbn [record_event]. eauto. }
  intros markdown_text. apply emits_bind.
  { apply emits_write_text. cbn [record_event]. eauto. }
  intros _. by apply emits_log.
Qed.

Lemma emits_for_results_record d m results index :
  emits (record_event args d m (records_of results)) (for_results env args d m index results).
Proof.
  revert index; induction results as [|r rest IH|e]; intros index;
    cbn [for_results records_of].
  - apply emits_ret.
  - apply emits_bind.
    + eapply emits_mono; [|apply emits_result_body_record].
      intros ev. apply record_event_mono. intros r' Hr'.
      apply list_elem_of_singleton in Hr' as ->. by left.
    + intros _. eapply emits_mono; [|apply IH].
      intros ev. apply record_event_mono. intros r' Hr'. by right.
  - apply emits_raise.
Qed.

Lemma emits_query_body_record client criterion each_query :
  emits (query_record_event args each_query
           (records_of (client_results env client
                          {| search_query := each_query;
                             search_max_results := max_results args;
                             search_sort_by := criterion |})))
        (query_body env args client criterion each_query).
Proof.
  unfold query_body. apply emits_bind.
  { apply emits_log. intros line. right. right. exact I. }
  intros _. apply emits_bind.
  { apply emits_os_makedirs. by left. }
  intros _. apply emits_bind.
  { apply emits_os_makedirs. right. by left. }
  intros _. eapply emits_mono; [|apply emits_for_results_record].
  intros ev Hev. right. right. exact Hev.
Qed.

Lemma emits_query_body client criterion each_query :
  emits (query_event args each_query) (query_body env args client criterion each_query).
Proof.
  unfold query_body. apply emits_bind.
  { apply emits_log. intros line. right. right. exact I. }
  intros _. apply emits_bind.
  { apply emits_os_makedirs. by left. }
  intros _. apply emits_bind.
  { apply emits_os_makedirs. right. by left. }
  intros _. eapply emits_mono; [|apply emits_for_results].
  intros ev Hev. right. right. exact Hev.
Qed.

(** The body of the result loop never raises: whatever the download and
    the conversion do, both handlers end in a status line. *)
Lemma result_body_returns d m index r w :
  snd (result_body env args d m index r w) = inr tt.
Proof.
  unfold result_body, bind, try_except. rewrite info_run.
  destruct (call_download_pdf r d (title r ++ lit ".pdf") _) as [w1 [e|[]]].
  - by rewrite error_run.
  - rewrite success_run.
    destruct (convert_and_save env args d m r _) as [w2 [e|[]]]; [|done].
    by rewrite error_run.
Qed.

Lemma for_results_step d m index r rest w :
  for_results env args d m index (RYield r rest) w
  = for_results env args d m (S index) rest (fst (result_body env args d m index r w)).
Proof.
  simpl. unfold bind at 1.
  pose proof (result_body_returns d m index r w) as H.
  destruct (result_body env args d m index r w) as [w' [e|[]]]; simpl in *; [done|].
  reflexivity.
Qed.


(** A sequence that raises after some records leaves the world the
    records alone leave. *)
Lemma for_results_raise d m records e index w :
  for_results env args d m index (yield_all records (RRaise e)) w
  = (fst (for_results env args d m index (yield_all records RDone) w), inl e).
Proof.
  revert index w; induction records as [|r records IH]; intros index w.
  - reflexivity.
  - cbn [yield_all]. rewrite !for_results_step. apply IH.
Qed.



Lemma for_queries_app client criterion qs1 qs2 w w1 :
  for_queries env args client criterion qs1 w = (w1, inr tt) ->
  for_queries env args client criterion (qs1 ++ qs2) w
  = for_queries env args client criterion qs2 w1.
Proof.
  revert w; induction qs1 as [|q qs1 IH]; intros w; simpl.
  - by intros [= ->].
  - unfold bind.
    destruct (query_body env args client criterion q w) as [w' [e|[]]]; [done|].
    apply IH.
Qed.

Lemma for_queries_abort client criterion q rest w w' e :
  query_body env args client criterion q w = (w', inl e) ->
  for_queries env args client criterion (q :: rest) w = (w', inl e).
Proof. intros H. simpl. unfold bind. by rewrite H. Qed.

End LoopFacts.

(** ** The markdown formatter: the claims *)

Section FormatterClaims.

Lemma open_rb_found path w data :
  files (fs w) !! path = Some data ->
  open_rb path w = (emitted (EOpenRead path) w, inr data).
Proof. intros H. unfold open_rb, bind, emit. cbn. by rewrite H. Qed.

Lemma open_rb_missing path w :
  files (fs w) !! path = None ->
  exists e, open_rb path w = (emitted (EOpenRead path) w, inl e).
Proof.
  intros H. unfold open_rb, bind, emit. cbn. rewrite H.
  case_decide; eauto.
Qed.

Lemma convert_handler_reraises pdf_path e w :
  fs (fst (convert_handler pdf_path e w)) = fs w
  /\ snd (convert_handler pdf_path e w) = inl e.
Proof. unfold convert_handler. by destruct (exn_class e). Qed.

Lemma convert_run env pdf_path w pdf_file :
  files (fs w) !! pdf_path = Some pdf_file ->
  fs (fst (convert_pdf_to_markdown env pdf_path w)) = fs w
  /\ snd (convert_pdf_to_markdown env pdf_path w)
     = match pdf_reader env pdf_file with
       | inl e => inl e
       | inr pages => pages_loop 0 pages []
       end
  /\ (forall markdown_text,
        snd (convert_pdf_to_markdown env pdf_path w) = inr markdown_text ->
        fst (convert_pdf_to_markdown env pdf_path w) = emitted (EOpenRead pdf_path) w).
Proof.
  intros Hf. unfold convert_pdf_to_markdown, try_except, bind.
  rewrite (open_rb_found _ _ _ Hf).
  pose proof (convert_handler_reraises pdf_path) as Hh.
  destruct (pdf_reader env pdf_file) as [e|pages]; unfold raise; cbv beta iota.
  - destruct (Hh e (emitted (EOpenRead pdf_path) w)) as [-> ->]. by split_and!.
  - destruct (pages_loop 0 pages []) as [e|md]; [|done].
    destruct (Hh e (emitted (EOpenRead pdf_path) w)) as [-> ->]. by split_and!.
Qed.

Lemma convert_fs env pdf_path w :
  fs (fst (convert_pdf_to_markdown env pdf_path w)) = fs w.
Proof.
  destruct (files (fs w) !! pdf_path) as [pdf_file|] eqn:Hf.
  - by apply (convert_run env pdf_path w pdf_file).
  - unfold convert_pdf_to_markdown, try_except, bind.
    destruct (open_rb_missing _ _ Hf) as [e ->].
    by destruct (convert_handler_reraises pdf_path e (emitted (EOpenRead pdf_path) w)).
Qed.

(** What [convert_pdf_to_markdown] returns for a file whose pages all give
    their text. *)
Lemma convert_pages env pdf_path w pdf_file texts :
  files (fs w) !! pdf_path = Some pdf_file ->
  pdf_reader env pdf_file = inr (map inr texts) ->
  convert_pdf_to_markdown env pdf_path w
  = (emitted (EOpenRead pdf_path) w, inr (page_sections 1 texts)).
Proof.
  intros Hf Hr.
  destruct (convert_run env pdf_path w pdf_file Hf) as (_ & Hs & Hw).
  rewrite Hr, pages_loop_sections in Hs. cbn [app] in Hs.
  specialize (Hw _ Hs).
  destruct (convert_pdf_to_markdown env pdf_path w) as [w' r]. cbn [fst snd] in *.
  by subst.
Qed.

(** C1. For every page, the formatter splits the page's raw text on
    ["\n\n"] into candidate paragraphs (joining the candidates with
    ["\n\n"] gives the text back and no candidate contains ["\n\n"]);
    each candidate has every line feed replaced by one space (same length,
    position by position) and the whitespace at both ends cut off; the
    result is appended with a blank line after it when it is not empty and
    dropped when it is empty, so a paragraph of whitespace only adds
    nothing; and the text [Hello\nworld\n\nSecond  paragraph] gives the
    two blocks [Hello world] and [Second  paragraph]. The loop over the
    pages does this to every page, in order: a page that gives its text
    adds its heading and its blocks to the text so far and the loop goes
    on with the next page; for a file whose pages all give their text
    [convert_pdf_to_markdown] returns, page after page, the heading of the
    page followed by its blocks, each block with a blank line after it;
    and the conversion of a one-page file with the text above returns the
    heading and the two blocks. *)
Theorem C1_paragraph_blocks (markdown_text text : str) (page_num : nat) :
  (join [LF; LF] (split [LF; LF] text) = text
   /\ forall p, p ∈ split [LF; LF] text -> contains [LF; LF] p = false)
  /\ (forall p,
        length (replace LF SPACE p) = length p
        /\ (forall i, replace LF SPACE p !! i
                      = (fun c => if c =? LF then SPACE else c) <$> p !! i)
        /\ (LF ∉ clean_paragraph p)
        /\ exists l r,
             replace LF SPACE p = l ++ clean_paragraph p ++ r
             /\ forallb is_space l = true /\ forallb is_space r = true
             /\ (forall c, head (clean_paragraph p) = Some c -> is_space c = false)
             /\ (forall c, last (clean_paragraph p) = Some c -> is_space c = false))
  /\ (forall md p,
        paragraph_body md p
        = if nonempty (clean_paragraph p) then md ++ clean_paragraph p ++ [LF; LF] else md)
  /\ (forall md p, forallb is_space p = true -> paragraph_body md p = md)
  /\ page_body markdown_text page_num text
     = markdown_text ++ [LF] ++ lit "## Page " ++ str_of_int (Z.of_nat page_num + 1)
       ++ [LF; LF]
       ++ concat (map (fun b => b ++ [LF; LF])
                    (filter (fun b => nonempty b = true)
                       (map clean_paragraph (split [LF; LF] text))))
  /\ paragraph_blocks hello_text = [lit "Hello world"; lit "Second  paragraph"]
  /\ page_body [] 0 hello_text
     = [LF] ++ lit "## Page 1" ++ [LF; LF] ++ lit "Hello world" ++ [LF; LF]
       ++ lit "Second  paragraph" ++ [LF; LF]
  /\ (forall rest,
        pages_loop page_num (inr text :: rest) markdown_text
        = pages_loop (S page_num) rest (page_body markdown_text page_num text))
  /\ (forall texts, pages_loop 0 (map inr texts) [] = inr (page_sections 1 texts))
  /\ (forall n t ts,
        page_sections n (t :: ts)
        = [LF] ++ lit "## Page " ++ str_of_int n ++ [LF; LF]
          ++ concat (map (fun b => b ++ [LF; LF])
                       (filter (fun b => nonempty b = true)
                          (map clean_paragraph (split [LF; LF] t))))
          ++ page_sections (n + 1) ts)
  /\ (forall env pdf_path w pdf_file texts,
        files (fs w) !! pdf_path = Some pdf_file ->
        pdf_reader env pdf_file = inr (map inr texts) ->
        convert_pdf_to_markdown env pdf_path w
        = (emitted (EOpenRead pdf_path) w, inr (page_sections 1 texts)))
  /\ snd (convert_pdf_to_markdown demo_env (lit "paper.pdf") pdf_world)
     = inr ([LF] ++ lit "## Page 1" ++ [LF; LF] ++ lit "Hello world" ++ [LF; LF]
            ++ lit "Second  paragraph" ++ [LF; LF]).
Proof.
  split; [split|].
  { by apply join_split. }
  { intros p Hp. by apply (split_pieces [LF; LF] text). }
  split.
  { intros p. split; [apply replace_length|]. split; [apply replace_lookup|].
    split; [apply clean_paragraph_no_LF|]. apply strip_spec. }
  split.
  { intros md p. unfold paragraph_body. by destruct (clean_paragraph p). }
  split.
  { intros md p Hp. unfold paragraph_body. by rewrite clean_paragraph_all_space. }
  split.
  { rewrite page_body_section. unfold page_section, heading_line, paragraph_blocks.
    by rewrite <- !app_assoc. }
  split; [vm_compute; reflexivity|].
  split; [vm_compute; reflexivity|].
  split; [done|].
  split.
  { intros texts. by rewrite pages_loop_sections. }
  split.
  { intros n t ts. cbn [page_sections].
    unfold page_section, heading_line, paragraph_blocks.
    by rewrite <- !app_assoc. }
  split; [apply convert_pages|].
  vm_compute; reflexivity.
Qed.

(** A paragraph of a space, a line feed and a tab adds nothing. *)
Lemma C1_paragraph_blocks_witness :
  paragraph_body (lit "text so far") [SPACE; LF; 9] = lit "text so far".
Proof.
  apply (proj1 (proj2 (proj2 (proj2 (C1_paragraph_blocks [] [] 0))))).
  reflexivity.
Defined.

(** The page [## Page 2] of a one-page PDF comes out as a second heading
    line: the text then has the headings 1 and 2 for a single page. *)
Lemma C2_counterexample :
  pages_loop 0 [inr (lit "## Page 2")] []
  = inr ([LF] ++ lit "## Page 1" ++ [LF; LF] ++ lit "## Page 2" ++ [LF; LF])
  /\ heading_numbers ([LF] ++ lit "## Page 1" ++ [LF; LF] ++ lit "## Page 2" ++ [LF; LF])
     = [1; 2]%Z
  /\ ~ headings_count_pages [lit "## Page 2"].
Proof.
  split; [vm_compute; reflexivity|]. split; [vm_compute; reflexivity|].
  intros H. specialize (H _ eq_refl). vm_compute in H. discriminate.
Qed.

(** C2, amended. For a PDF whose pages have the texts [texts],
    [convert_pdf_to_markdown] returns the sections of the pages in order,
    each opened by the heading [## Page N] of its page, N from 1 to the
    page count. The heading lines of the returned text are these, each
    followed by those paragraph blocks of its page that have the form
    [## Page N] themselves; when no block of any page has that form, the
    headings of the text are exactly 1 to the page count, each once, in
    increasing order. *)
Theorem C2_page_headings env pdf_path w pdf_file (texts : list str) :
  files (fs w) !! pdf_path = Some pdf_file ->
  pdf_reader env pdf_file = inr (map inr texts) ->
  convert_pdf_to_markdown env pdf_path w
  = (emitted (EOpenRead pdf_path) w, inr (page_sections 1 texts))
  /\ heading_numbers (page_sections 1 texts) = section_numbers 1 texts
  /\ (Forall (fun text => Forall (fun b => page_heading_number b = None)
                            (paragraph_blocks text)) texts ->
      heading_numbers (page_sections 1 texts) = one_to (length texts)).
Proof.
  intros Hf Hr.
  destruct (convert_run env pdf_path w pdf_file Hf) as (_ & Hs & Hw).
  rewrite Hr, pages_loop_sections in Hs. simpl in Hs.
  assert (Hn : heading_numbers (page_sections 1 texts) = section_numbers 1 texts).
  { rewrite <- (app_nil_r (page_sections 1 texts)).
    rewrite heading_numbers_sections by lia.
    by rewrite heading_numbers_nil, app_nil_r. }
  split; [|split].
  - specialize (Hw _ Hs).
    destruct (convert_pdf_to_markdown env pdf_path w) as [w' r]. simpl in *.
    by subst.
  - exact Hn.
  - intros Hplain. rewrite Hn, section_numbers_plain by done.
    unfold one_to. apply map_ext. intros i. lia.
Qed.

Lemma C2_page_headings_witness :
  heading_numbers (page_sections 1 [hello_text]) = one_to 1.
Proof.
  refine (proj2 (proj2 (C2_page_headings demo_env (lit "paper.pdf") pdf_world
                          (Bytes [1]) [hello_text] _ _)) _).
  - reflexivity.
  - reflexivity.
  - repeat constructor.
Defined.

(** C9. The outcome of [convert_pdf_to_markdown] is a function of what
    pypdf extracts from the file and of nothing else: two conversions
    whose files have the same extracted content (in particular two
    conversions of the same bytes) give the same text, or the same
    exception, whatever the path, the other files, the console and the
    clock are; the conversion leaves the file system as it was, and a
    successful one does nothing but read the file. *)
Theorem C9_conversion_deterministic env1 env2 path1 path2 w1 w2 file1 file2 :
  files (fs w1) !! path1 = Some file1 ->
  files (fs w2) !! path2 = Some file2 ->
  pdf_reader env1 file1 = pdf_reader env2 file2 ->
  snd (convert_pdf_to_markdown env1 path1 w1) = snd (convert_pdf_to_markdown env2 path2 w2)
  /\ fs (fst (convert_pdf_to_markdown env1 path1 w1)) = fs w1
  /\ (forall markdown_text,
        snd (convert_pdf_to_markdown env1 path1 w1) = inr markdown_text ->
        fst (convert_pdf_to_markdown env1 path1 w1) = emitted (EOpenRead path1) w1)
  /\ (forall texts,
        pdf_reader env1 file1 = inr (map inr texts) ->
        snd (convert_pdf_to_markdown env1 path1 w1) = inr (page_sections 1 texts)).
Proof.
  intros Hf1 Hf2 Hr.
  destruct (convert_run env1 path1 w1 file1 Hf1) as (Hfs1 & Hs1 & Hw1).
  destruct (convert_run env2 path2 w2 file2 Hf2) as (_ & Hs2 & _).
  split; [by rewrite Hs1, Hs2, Hr|]. split; [done|]. split; [done|].
  intros texts Ht. by rewrite Hs1, Ht, pages_loop_sections.
Qed.

End FormatterClaims.

(** ** The orchestrator: the claims *)

Section OrchestratorClaims.

Variable env : Env.
Variable args : Args.

Lemma log_line_contains color n before t after :
  contains t (log_line env color n (before ++ t ++ after)) = true.
Proof.
  unfold log_line.
  replace (color ++ strftime_now env n ++ lit " - " ++ (before ++ t ++ after) ++ Style_RESET_ALL)
    with ((color ++ strftime_now env n ++ lit " - " ++ before) ++ t ++ (after ++ Style_RESET_ALL))
    by (by rewrite <- !app_assoc).
  apply occurs_contains.
Qed.

Lemma write_text_frame path text w :
  dirs (fs (fst (write_text env path text w))) = dirs (fs w)
  /\ forall p, p <> path ->
       files (fs (fst (write_text env path text w))) !! p = files (fs w) !! p.
Proof.
  unfold write_text, bind, emit. cbn [fs trace clock fst snd].
  repeat case_decide; try done.
  destruct (text_encode_error env text); cbn;
    (split; [done|]; intros p Hp; by rewrite lookup_insert_ne).
Qed.

Lemma path_pdf_ne_md (d m t t' : str) : d ++ t ++ lit ".pdf" <> m ++ t' ++ lit ".md".
Proof.
  intros H. apply (f_equal last) in H.
  change (lit ".pdf") with ([46; 112; 100] ++ [102]) in H.
  change (lit ".md") with ([46; 109] ++ [100]) in H.
  rewrite !app_assoc, !last_snoc in H. discriminate.
Qed.

(** The guarded conversion touches no directory and no file but the
    markdown file of the record. *)
Lemma convert_and_save_frame d m r w :
  dirs (fs (fst (convert_and_save env args d m r w))) = dirs (fs w)
  /\ forall p, p <> m ++ title r ++ lit ".md" ->
       files (fs (fst (convert_and_save env args d m r w))) !! p = files (fs w) !! p.
Proof.
  unfold convert_and_save. destruct (markdown args); [|done].
  unfold bind.
  pose proof (convert_fs env (d ++ title r ++ lit ".pdf") w) as Hc.
  destruct (convert_pdf_to_markdown env (d ++ title r ++ lit ".pdf") w) as [w1 [e|md]];
    cbn [fst snd] in *; [by rewrite Hc|].
  pose proof (write_text_frame (m ++ title r ++ lit ".md") md w1) as [Hd Hf].
  destruct (write_text env (m ++ title r ++ lit ".md") md w1) as [w2 [e|[]]];
    cbn [fst snd] in *.
  - rewrite Hd, Hc. split; [done|]. intros p Hp. by rewrite Hf, Hc.
  - rewrite success_run. cbn [fst logged fs]. rewrite Hd, Hc.
    split; [done|]. intros p Hp. by rewrite Hf, Hc.
Qed.

Lemma convert_and_save_raises_markdown d m r w w' e :
  convert_and_save env args d m r w = (w', inl e) -> markdown args = true.
Proof. unfold convert_and_save. by destruct (markdown args). Qed.


(** C4. When the download of a record succeeds and the guarded conversion
    then raises [e], the body of the result loop prints an error line with
    the record's title and [str(e)] and returns, and the loop goes on with
    the next record. The failed conversion leaves the downloaded PDF as
    the download left it: it changes no directory and no file other than
    the markdown file of the record. *)
Theorem C4_conversion_failure_keeps_pdf d m index r rest w fs1 w2 e :
  download_pdf r d (title r ++ lit ".pdf") (fs w) = (fs1, None) ->
  let w1 :=
    logged env success_color (lit "Downloaded " ++ title r)
      (with_fs fs1
         (emitted (EDownload (title r) d (title r ++ lit ".pdf"))
            (logged env info_color (downloading_message args index r) w))) in
  convert_and_save env args d m r w1 = (w2, inl e) ->
  let w3 := logged env error_color (convert_error_message r e) w2 in
  result_body env args d m index r w = (w3, inr tt)
  /\ contains (title r)
       (log_line env error_color (clock w2) (convert_error_message r e)) = true
  /\ for_results env args d m index (RYield r rest) w
     = for_results env args d m (S index) rest w3
  /\ markdown args = true
  /\ files (fs w3) !! (d ++ title r ++ lit ".pdf") = files fs1 !! (d ++ title r ++ lit ".pdf")
  /\ dirs (fs w3) = dirs fs1
  /\ (forall p, p <> m ++ title r ++ lit ".md" -> files (fs w3) !! p = files fs1 !! p).
Proof.
  intros Hd w1 Hc w3.
  assert (Hbody : result_body env args d m index r w = (w3, inr tt)).
  { unfold result_body, bind, try_except. rewrite info_run, call_download_pdf_run.
    cbn [fs logged]. rewrite Hd, success_run.
    fold (downloading_message args index r). fold w1. rewrite Hc.
    by rewrite error_run. }
  destruct (convert_and_save_frame d m r w1) as [Hdirs Hfiles].
  rewrite Hc in Hdirs, Hfiles. cbn [fst] in Hdirs, Hfiles.
  split; [exact Hbody|]. split.
  { unfold convert_error_message. apply log_line_contains. }
  split.
  { by rewrite for_results_step, Hbody. }
  split.
  { by apply (convert_and_save_raises_markdown d m r w1 w2 e). }
  split.
  { apply (Hfiles (d ++ title r ++ lit ".pdf")), path_pdf_ne_md. }
  split; [exact Hdirs | exact Hfiles].
Qed.

Lemma os_makedirs_cases name w :
  (exists w', os_makedirs env name true w = (w', inr tt)
     /\ trace w' = trace w ++ [EMakedirs name true]
     /\ clock w' = clock w
     /\ name ∈ dirs (fs w') /\ files (fs w') = files (fs w)
     /\ dirs (fs w) ⊆ dirs (fs w')
     /\ dirs (fs w') ⊆ {[ name ]} ∪ dirs (fs w))
  \/ (exists e, os_makedirs env name true w = (emitted (EMakedirs name true) w, inl e)).
Proof.
  pose proof (os_makedirs_frame env name true w) as (Ht & Hc & Hf & Hs1 & Hs2).
  destruct (os_makedirs env name true w) as [w' [e|[]]] eqn:E; cbn [fst] in *.
  - right. exists e. by rewrite (os_makedirs_raises env _ _ _ _ _ E).
  - left. exists w'. split; [done|].
    pose proof (os_makedirs_returns env _ _ _ _ _ E). done.
Qed.

(** The world in which the result loop of a query starts, when both
    directory creations have returned. *)
Lemma query_body_run client criterion q w wa wb :
  os_makedirs env (pdf_dir_of q) true
    (logged env info_color (lit "Searching for " ++ q) w) = (wa, inr tt) ->
  os_makedirs env (md_dir_of q) true wa = (wb, inr tt) ->
  query_body env args client criterion q w
  = for_results env args (pdf_dir_of q) (md_dir_of q) 0
      (client_results env client
         {| search_query := q; search_max_results := max_results args;
            search_sort_by := criterion |}) wb
  /\ trace wb
     = trace w ++ [EPrint (log_line env info_color (clock w) (lit "Searching for " ++ q));
                   EMakedirs (pdf_dir_of q) true; EMakedirs (md_dir_of q) true]
  /\ pdf_dir_of q ∈ dirs (fs wb) /\ md_dir_of q ∈ dirs (fs wb)
  /\ files (fs wb) = files (fs w)
  /\ dirs (fs wb) ⊆ {[ md_dir_of q ]} ∪ ({[ pdf_dir_of q ]} ∪ dirs (fs w)).
Proof.
  intros Ha Hb.
  pose proof (os_makedirs_frame env (pdf_dir_of q) true
                (logged env info_color (lit "Searching for " ++ q) w))
    as (Ht1 & _ & Hf1 & Hs1 & Hu1).
  pose proof (os_makedirs_frame env (md_dir_of q) true wa) as (Ht2 & _ & Hf2 & Hs2 & Hu2).
  pose proof (os_makedirs_returns env _ _ _ _ _ Ha) as Hd1.
  pose proof (os_makedirs_returns env _ _ _ _ _ Hb) as Hd2.
  rewrite Ha in Ht1, Hf1, Hs1, Hu1. rewrite Hb in Ht2, Hf2, Hs2, Hu2.
  cbn [fst logged fs trace] in *.
  split.
  { unfold query_body, bind. by rewrite info_run, Ha, Hb. }
  split; [by rewrite Ht2, Ht1, <- !app_assoc|].
  split; [by apply Hs2|]. split; [done|]. split; [by rewrite Hf2|].
  etrans; [exact Hu2|]. by apply union_mono_l.
Qed.

(** How the processing of one query goes: the creation of the first
    directory raises, or that of the second, or the result loop starts in
    a world where both exist. *)
Lemma query_body_cases client criterion q w :
  let w0 := logged env info_color (lit "Searching for " ++ q) w in
  let search := {| search_query := q; search_max_results := max_results args;
                   search_sort_by := criterion |} in
  (exists e,
     os_makedirs env (pdf_dir_of q) true w0
     = (emitted (EMakedirs (pdf_dir_of q) true) w0, inl e)
     /\ query_body env args client criterion q w
        = (emitted (EMakedirs (pdf_dir_of q) true) w0, inl e))
  \/ (exists w1 e,
        os_makedirs env (pdf_dir_of q) true w0 = (w1, inr tt)
        /\ os_makedirs env (md_dir_of q) true w1
           = (emitted (EMakedirs (md_dir_of q) true) w1, inl e)
        /\ query_body env args client criterion q w
           = (emitted (EMakedirs (md_dir_of q) true) w1, inl e)
        /\ trace w1 = trace w0 ++ [EMakedirs (pdf_dir_of q) true])
  \/ (exists w1 w2,
        os_makedirs env (pdf_dir_of q) true w0 = (w1, inr tt)
        /\ os_makedirs env (md_dir_of q) true w1 = (w2, inr tt)
        /\ query_body env args client criterion q w
           = for_results env args (pdf_dir_of q) (md_dir_of q) 0
               (client_results env client search) w2
        /\ trace w2 = trace w0 ++ [EMakedirs (pdf_dir_of q) true; EMakedirs (md_dir_of q) true]
        /\ pdf_dir_of q ∈ dirs (fs w2) /\ md_dir_of q ∈ dirs (fs w2)
        /\ files (fs w2) = files (fs w)).
Proof.
  intros w0 search.
  destruct (os_makedirs_cases (pdf_dir_of q) w0)
    as [(w1 & Ha & Ht1 & _) | (e & Ha)].
  2: { left. exists e. split; [done|]. unfold query_body, bind.
       rewrite info_run. fold w0. by rewrite Ha. }
  right.
  destruct (os_makedirs_cases (md_dir_of q) w1)
    as [(w2 & Hb & _) | (e & Hb)].
  2: { left. exists w1, e. split; [done|]. split; [done|]. split; [|done].
       unfold query_body, bind. rewrite info_run. fold w0. by rewrite Ha, Hb. }
  right. exists w1, w2. split; [done|]. split; [done|].
  destruct (query_body_run client criterion q w w1 w2 Ha Hb)
    as (Hrun & Ht & Hd1 & Hd2 & Hf & _).
  split; [done|]. split.
  { rewrite Ht. unfold w0. cbn [logged trace]. by rewrite <- app_assoc. }
  done.
Qed.

(** C5. An exception raised by the iteration of the result sequence is not
    caught. The result loop raises it in the world the records yielded
    before it left, with no handler and no status line in between; the
    processing of the query raises it; and the run, having come to the
    query and made its two directories, ends there with it, whatever
    queries were still to come. *)
Theorem C5_iteration_error_ends_run qs1 q qs2 records e w w1 wa wb :
  query_list args = qs1 ++ q :: qs2 ->
  for_queries env args (client_of args) (criterion_of (sort_by args)) qs1 w = (w1, inr tt) ->
  os_makedirs env (pdf_dir_of q) true
    (logged env info_color (lit "Searching for " ++ q) w1) = (wa, inr tt) ->
  os_makedirs env (md_dir_of q) true wa = (wb, inr tt) ->
  client_results env (client_of args) (search_of args q) = yield_all records (RRaise e) ->
  main env args w
  = (fst (for_results env args (pdf_dir_of q) (md_dir_of q) 0
            (yield_all records RDone) wb), inl e)
  /\ (forall d m index w0,
        for_results env args d m index (yield_all records (RRaise e)) w0
        = (fst (for_results env args d m index (yield_all records RDone) w0), inl e))
  /\ (forall d m index w0, for_results env args d m index (RRaise e) w0 = (w0, inl e)).
Proof.
  intros Hq Hqs1 Ha Hb Hres.
  split; [|split; [intros; apply for_results_raise | reflexivity]].
  change (main env args w)
    with (for_queries env args (client_of args) (criterion_of (sort_by args))
            (query_list args) w).
  rewrite Hq, (for_queries_app env args _ _ qs1 (q :: qs2) w w1 Hqs1).
  apply for_queries_abort.
  destruct (query_body_run (client_of args) (criterion_of (sort_by args)) q w1 wa wb Ha Hb)
    as (Hrun & _).
  rewrite Hrun. fold (search_of args q). by rewrite Hres, for_results_raise.
Qed.

(** A query with a tab keeps the tab in its directory names. *)
Lemma C6_counterexample :
  pdf_dir_of (lit "a" ++ [9] ++ lit "b") = lit "./pdfs/a" ++ [9] ++ lit "b/"
  /\ is_space 9 = true
  /\ whitespace_to_underscore (lit "a" ++ [9] ++ lit "b") = lit "a_b"
  /\ ~ dir_replaces_whitespace (lit "a" ++ [9] ++ lit "b").
Proof.
  split; [vm_compute; reflexivity|]. split; [reflexivity|].
  split; [vm_compute; reflexivity|].
  intros [H _]. vm_compute in H. discriminate.
Qed.

(** C6, amended. The per-query directories are [./pdfs/<name>/] and
    [./mds/<name>/], where [<name>] is the query with every space
    character (U+0020) replaced by an underscore: it has the length of the
    query, an underscore where the query has a space and the query's own
    character everywhere else, so it holds no space. These are the
    directories the processing of the query creates and downloads into. *)
Theorem C6_spaces_to_underscores client criterion (q : str) :
  pdf_dir_of q = lit "./pdfs/" ++ replace SPACE UNDERSCORE q ++ lit "/"
  /\ md_dir_of q = lit "./mds/" ++ replace SPACE UNDERSCORE q ++ lit "/"
  /\ length (replace SPACE UNDERSCORE q) = length q
  /\ (forall i, replace SPACE UNDERSCORE q !! i
                = (fun c => if c =? SPACE then UNDERSCORE else c) <$> q !! i)
  /\ (SPACE ∉ replace SPACE UNDERSCORE q)
  /\ emits (query_event args q) (query_body env args client criterion q).
Proof.
  split; [done|]. split; [done|]. split; [apply replace_length|].
  split; [apply replace_lookup|]. split; [by apply replace_not_elem|].
  apply emits_query_body.
Qed.

Lemma query_event_under_roots q ev : query_event args q ev -> under_roots ev.
Proof.
  intros [-> | [-> | H]].
  - left. apply startswith_app.
  - right. apply startswith_app.
  - destruct ev as [line|name ok|t dp fn|path|path];
      unfold result_event, under_roots in *; try done.
    + destruct H as [-> _]. apply startswith_app.
    + destruct H as (_ & t & ->). unfold pdf_dir_of.
      rewrite <- app_assoc. apply startswith_app.
    + destruct H as (_ & t & ->). unfold md_dir_of.
      rewrite <- app_assoc. apply startswith_app.
Qed.

Lemma emits_for_queries (P : Event -> Prop) client criterion queries :
  (forall q ev, q ∈ queries -> query_event args q ev -> P ev) ->
  emits P (for_queries env args client criterion queries).
Proof.
  induction queries as [|q queries IH]; intros HP; simpl.
  - apply emits_ret.
  - apply emits_bind.
    + eapply emits_mono; [|apply emits_query_body].
      intros ev. apply HP. by left.
    + intros _. apply IH. intros q' ev Hq'. apply HP. by right.
Qed.

Lemma emits_for_queries_record (P : Event -> Prop) client criterion queries :
  (forall q ev, q ∈ queries ->
     query_record_event args q
       (records_of (client_results env client
                      {| search_query := q; search_max_results := max_results args;
                         search_sort_by := criterion |})) ev -> P ev) ->
  emits P (for_queries env args client criterion queries).
Proof.
  induction queries as [|q queries IH]; intros HP; simpl.
  - apply emits_ret.
  - apply emits_bind.
    + eapply emits_mono; [|apply emits_query_body_record].
      intros ev. apply HP. by left.
    + intros _. apply IH. intros q' ev Hq'. apply HP. by right.
Qed.

Lemma download_not_in (l pre post : list Event) t dp fn :
  Forall (fun ev => ~ is_download ev) l -> l <> pre ++ EDownload t dp fn :: post.
Proof.
  intros Hl ->. apply Forall_app in Hl as [_ Hl].
  apply Forall_cons in Hl as [Hd _]. by apply Hd.
Qed.

Lemma download_after_three (a b c : Event) evs pre post t dp fn :
  ~ is_download a -> ~ is_download b -> ~ is_download c ->
  a :: b :: c :: evs = pre ++ EDownload t dp fn :: post ->
  exists pre', pre = a :: b :: c :: pre' /\ evs = pre' ++ EDownload t dp fn :: post.
Proof.
  intros Ha Hb Hc H.
  destruct pre as [|x pre]; simplify_eq/=; [by destruct Ha|].
  destruct pre as [|y pre]; simplify_eq/=; [by destruct Hb|].
  destruct pre as [|z pre]; simplify_eq/=; [by destruct Hc|].
  by eexists.
Qed.

(** In what the processing of a query adds to the trace, a download
    attempt goes to the directory of the query and has both directory
    creations before it. *)
Lemma query_body_order client criterion q w :
  exists evs,
    trace (fst (query_body env args client criterion q w)) = trace w ++ evs
    /\ forall pre post t dirpath filename,
         evs = pre ++ EDownload t dirpath filename :: post ->
         dirpath = pdf_dir_of q
         /\ EMakedirs (pdf_dir_of q) true ∈ pre /\ EMakedirs (md_dir_of q) true ∈ pre.
Proof.
  destruct (query_body_cases client criterion q w)
    as [(e & _ & Hrun) | [(w1 & e & _ & _ & Hrun & Ht1) | (w1 & w2 & _ & _ & Hrun & Ht2 & _)]].
  - rewrite Hrun. cbn [fst emitted logged trace]. eexists [_; _].
    split; [by rewrite <- !app_assoc|]. intros pre post t dp fn H.
    apply download_not_in in H; [done|]. repeat constructor; by intros [].
  - rewrite Hrun. cbn [fst emitted trace]. rewrite Ht1. cbn [logged trace].
    eexists [_; _; _]. split; [by rewrite <- !app_assoc|]. intros pre post t dp fn H.
    apply download_not_in in H; [done|]. repeat constructor; by intros [].
  - rewrite Hrun.
    match goal with
    | |- context [for_results env args ?d ?m 0 ?rs w2] =>
        destruct (emits_for_results env args d m rs 0 w2) as (evs & Hevs & Hall)
    end.
    rewrite Hevs, Ht2. cbn [logged trace]. eexists (_ :: _ :: _ :: evs).
    split; [by rewrite <- !app_assoc|]. intros pre post t dp fn H.
    apply download_after_three in H as (pre' & -> & ->); [|by intros [] ..].
    apply Forall_app in Hall as [_ Hall]. apply Forall_cons in Hall as [[-> _] _].
    split; [done|]. split; [right; by left | right; right; by left].
Qed.

Lemma for_queries_order client criterion queries w :
  exists evs,
    trace (fst (for_queries env args client criterion queries w)) = trace w ++ evs
    /\ forall pre post t dirpath filename,
         evs = pre ++ EDownload t dirpath filename :: post ->
         exists q, q ∈ queries /\ dirpath = pdf_dir_of q
           /\ EMakedirs (pdf_dir_of q) true ∈ pre /\ EMakedirs (md_dir_of q) true ∈ pre.
Proof.
  revert w; induction queries as [|q queries IH]; intros w.
  - exists []. split; [by rewrite app_nil_r|]. intros pre post ? ? ? H. by destruct pre.
  - destruct (query_body_order client criterion q w) as (evs1 & Ht1 & Ho1).
    cbn [for_queries]. unfold bind.
    destruct (query_body env args client criterion q w) as [w1 [e|[]]]; cbn [fst] in *.
    + exists evs1. split; [done|]. intros pre post t dp fn H.
      destruct (Ho1 _ _ _ _ _ H) as (-> & H1 & H2). exists q. split; [by left|done].
    + destruct (IH w1) as (evs2 & Ht2 & Ho2).
      exists (evs1 ++ evs2). split; [by rewrite Ht2, Ht1, <- app_assoc|].
      intros pre post t dp fn H.
      apply app_eq_inv in H as [(k & Hk1 & Hk2) | (k & Hk1 & Hk2)].
      * destruct k as [|ev k].
        -- cbn [app] in Hk2.
           destruct (Ho2 [] _ _ _ _ (eq_sym Hk2)) as (q' & _ & _ & Hin & _).
           by apply not_elem_of_nil in Hin.
        -- cbn [app] in Hk2. injection Hk2 as <- _.
           destruct (Ho1 _ _ _ _ _ Hk1) as (-> & H1 & H2).
           exists q. split; [by left|done].
      * destruct (Ho2 _ _ _ _ _ Hk2) as (q' & Hq' & -> & H1 & H2).
        exists q'. split; [by right|]. split; [done|]. rewrite Hk1.
        split; apply elem_of_app; by right.
Qed.

(** C8. When the run comes to a query and its two [os.makedirs] calls
    return, both directories, [pdfs/<name>/] and [mds/<name>/], exist in
    the world in which the loop over the results of the query starts. In
    the whole run a download attempt goes to the directory of a query of
    the list and has both [os.makedirs] calls of that query before it.
    The calls pass [exist_ok=True]: on a directory that exists the call
    returns without an exception and changes nothing, so creating a
    directory a second time raises no error, and a query whose
    directories are there already goes straight on to its results. *)
Theorem C8_directories_first qs1 q qs2 w w1 wa wb :
  query_list args = qs1 ++ q :: qs2 ->
  for_queries env args (client_of args) (criterion_of (sort_by args)) qs1 w = (w1, inr tt) ->
  os_makedirs env (pdf_dir_of q) true
    (logged env info_color (lit "Searching for " ++ q) w1) = (wa, inr tt) ->
  os_makedirs env (md_dir_of q) true wa = (wb, inr tt) ->
  main env args w
  = bind (for_results env args (pdf_dir_of q) (md_dir_of q) 0
            (client_results env (client_of args) (search_of args q)))
         (fun _ => for_queries env args (client_of args) (criterion_of (sort_by args)) qs2)
         wb
  /\ trace wb
     = trace w1 ++ [EPrint (log_line env info_color (clock w1) (lit "Searching for " ++ q));
                    EMakedirs (pdf_dir_of q) true; EMakedirs (md_dir_of q) true]
  /\ pdf_dir_of q ∈ dirs (fs wb) /\ md_dir_of q ∈ dirs (fs wb)
  /\ (forall pre post t dirpath filename,
        trace (fst (main env args w)) = trace w ++ pre ++ EDownload t dirpath filename :: post ->
        exists q', q' ∈ query_list args /\ dirpath = pdf_dir_of q'
          /\ EMakedirs (pdf_dir_of q') true ∈ pre /\ EMakedirs (md_dir_of q') true ∈ pre)
  /\ (forall name w0,
        name ∈ dirs (fs w0) ->
        os_makedirs env name true w0 = (emitted (EMakedirs name true) w0, inr tt))
  /\ (forall name w0 w',
        os_makedirs env name true w0 = (w', inr tt) ->
        os_makedirs env name true w' = (emitted (EMakedirs name true) w', inr tt))
  /\ (forall client criterion q0 w0,
        pdf_dir_of q0 ∈ dirs (fs w0) -> md_dir_of q0 ∈ dirs (fs w0) ->
        query_body env args client criterion q0 w0
        = for_results env args (pdf_dir_of q0) (md_dir_of q0) 0
            (client_results env client
               {| search_query := q0; search_max_results := max_results args;
                  search_sort_by := criterion |})
            (emitted (EMakedirs (md_dir_of q0) true)
               (emitted (EMakedirs (pdf_dir_of q0) true)
                  (logged env info_color (lit "Searching for " ++ q0) w0)))).
Proof.
  intros Hq Hqs1 Ha Hb.
  destruct (query_body_run (client_of args) (criterion_of (sort_by args)) q w1 wa wb Ha Hb)
    as (Hrun & Ht & Hd1 & Hd2 & _).
  split; [|split; [exact Ht|split; [exact Hd1|split; [exact Hd2|]]]].
  { change (main env args w)
      with (for_queries env args (client_of args) (criterion_of (sort_by args))
              (query_list args) w).
    rewrite Hq, (for_queries_app env args _ _ qs1 (q :: qs2) w w1 Hqs1).
    cbn [for_queries]. unfold bind at 1. rewrite Hrun. reflexivity. }
  split; [|split; [|split]].
  - intros pre post t dp fn H.
    destruct (for_queries_order (client_of args) (criterion_of (sort_by args))
                (query_list args) w) as (evs & Hevs & Ho).
    change (main env args w)
      with (for_queries env args (client_of args) (criterion_of (sort_by args))
              (query_list args) w) in H.
    rewrite Hevs in H. apply app_inv_head in H. by apply Ho in H.
  - intros name w0. apply os_makedirs_present.
  - intros name w0 w' H. apply os_makedirs_present.
    by apply (os_makedirs_returns env _ _ _ _ _ H).
  - intros client criterion q0 w0 Hpdf Hmd. unfold query_body, bind. rewrite info_run.
    rewrite os_makedirs_present by done. by rewrite os_makedirs_present.
Qed.



Lemma startswith_refl s : startswith s s = true.
Proof. rewrite <- (app_nil_r s) at 2. apply startswith_app. Qed.



End OrchestratorClaims.

(** ** Where the paths of a run lie *)

Section Roots.

Lemma split_char_last c a cur : c ∉ a -> split_go [c] 0 cur a = [cur ++ a].
Proof.
  revert cur; induction a as [|x a IH]; intros cur Ha; cbn [split_go startswith].
  - by rewrite app_nil_r.
  - apply not_elem_of_cons in Ha as [Hx Ha]. rewrite andb_true_r.
    destruct (N.eqb_spec c x) as [E|_]; [by destruct Hx|].
    rewrite IH by done. by rewrite <- app_assoc.
Qed.

Lemma split_char_cut c a b cur :
  c ∉ a -> split_go [c] 0 cur (a ++ c :: b) = (cur ++ a) :: split_go [c] 0 [] b.
Proof.
  revert cur; induction a as [|x a IH]; intros cur Ha; cbn [split_go startswith app].
  - rewrite N.eqb_refl, app_nil_r. reflexivity.
  - apply not_elem_of_cons in Ha as [Hx Ha]. rewrite andb_true_r.
    destruct (N.eqb_spec c x) as [E|_]; [by destruct Hx|].
    rewrite IH by done. by rewrite <- app_assoc.
Qed.

(** A component other than [..] leaves the root of what is resolved so
    far where it is. *)
Lemma resolve_step_keeps_root stack component :
  stack <> [] -> component <> lit ".." ->
  resolve_step stack component <> []
  /\ last (resolve_step stack component) = last stack.
Proof.
  intros Hs Hc. unfold resolve_step.
  destruct (bool_decide (component = []) || bool_decide (component = lit ".")); [done|].
  rewrite bool_decide_eq_false_2 by done. split; [done|]. by destruct stack.
Qed.

Lemma resolve_rooted root name file :
  resolve_step [] root = [root] -> 47 ∉ root ->
  47 ∉ name -> name <> lit ".." -> 47 ∉ file -> file <> lit ".." ->
  last (resolve (lit "." ++ 47 :: root ++ 47 :: name ++ 47 :: file)) = Some root.
Proof.
  intros Hroot Hr Hn Hn2 Hf Hf2. unfold resolve, split.
  rewrite (split_char_cut 47 (lit "."))
    by (intros H; vm_compute in H; apply list_elem_of_singleton in H; discriminate).
  rewrite (split_char_cut 47 root), (split_char_cut 47 name), (split_char_last 47 file)
    by done.
  cbn [fold_left app].
  change (resolve_step [] (lit ".")) with (@nil str). rewrite Hroot.
  destruct (resolve_step_keeps_root [root] name) as [Hne H1]; [done..|].
  destruct (resolve_step_keeps_root (resolve_step [root] name) file) as [_ H2]; [done..|].
  by rewrite H2, H1.
Qed.

Lemma replace_keeps_out c old new s : c ∉ s -> c <> new -> c ∉ replace old new s.
Proof.
  intros Hs Hc Hin. unfold replace in Hin.
  apply list_elem_of_fmap in Hin as (x & Hx & Hxs).
  destruct (x =? old); [by subst | by subst].
Qed.

Lemma replace_dotdot q : replace SPACE UNDERSCORE q = lit ".." -> q = lit "..".
Proof.
  destruct q as [|a [|b [|c q]]]; try discriminate. cbn [replace map].
  destruct (N.eqb_spec a SPACE); [discriminate|].
  destruct (N.eqb_spec b SPACE); [discriminate|]. done.
Qed.

Lemma file_name_not_dotdot (t ext : str) :
  (3 <= length ext)%nat -> t ++ ext <> lit "..".
Proof.
  intros Hlen H. apply (f_equal length) in H. rewrite length_app in H.
  change (length (lit "..")) with 2%nat in H. lia.
Qed.

(** The paths built for a query and a title that hold no ['/'], the query
    not being [..], resolve to places under [pdfs] and [mds]. *)
Lemma paths_under_fixed_roots q t :
  47 ∉ q -> q <> lit ".." -> 47 ∉ t ->
  under_fixed_roots (pdf_dir_of q) = true
  /\ under_fixed_roots (md_dir_of q) = true
  /\ under_fixed_roots (pdf_dir_of q ++ t ++ lit ".pdf") = true
  /\ under_fixed_roots (md_dir_of q ++ t ++ lit ".md") = true.
Proof.
  intros Hq Hq2 Ht.
  assert (Hn : 47 ∉ replace SPACE UNDERSCORE q) by (by apply replace_keeps_out).
  assert (Hn2 : replace SPACE UNDERSCORE q <> lit "..").
  { intros H. by apply Hq2, replace_dotdot. }
  assert (Hslash : forall ext : str, 47 ∉ ext -> 47 ∉ t ++ ext).
  { intros ext He H. apply elem_of_app in H as [H|H]; [by apply Ht | by apply He]. }
  assert (Hpdf : (47 : N) ∉ lit ".pdf").
  { intros H. vm_compute in H.
    repeat (apply elem_of_cons in H as [H|H]; [discriminate|]).
    by apply not_elem_of_nil in H. }
  assert (Hmd : (47 : N) ∉ lit ".md").
  { intros H. vm_compute in H.
    repeat (apply elem_of_cons in H as [H|H]; [discriminate|]).
    by apply not_elem_of_nil in H. }
  assert (Hp : (47 : N) ∉ lit "pdfs").
  { intros H. vm_compute in H.
    repeat (apply elem_of_cons in H as [H|H]; [discriminate|]).
    by apply not_elem_of_nil in H. }
  assert (Hm : (47 : N) ∉ lit "mds").
  { intros H. vm_compute in H.
    repeat (apply elem_of_cons in H as [H|H]; [discriminate|]).
    by apply not_elem_of_nil in H. }
  unfold under_fixed_roots, pdf_dir_of, md_dir_of.
  rewrite <- !app_assoc.
  change (lit "./pdfs/" ++ ?x) with (lit "." ++ 47 :: lit "pdfs" ++ 47 :: x).
  change (lit "./mds/" ++ ?x) with (lit "." ++ 47 :: lit "mds" ++ 47 :: x).
  change (lit "/" ++ ?x) with (47 :: x). change (lit "/") with (47 :: @nil N).
  change (startswith [47] (lit "." ++ ?x)) with false.
  rewrite !(resolve_rooted (lit "pdfs") (replace SPACE UNDERSCORE q)),
    !(resolve_rooted (lit "mds") (replace SPACE UNDERSCORE q));
    try done; try (by apply not_elem_of_nil); try (by apply Hslash);
    try (by apply file_name_not_dotdot; vm_compute; lia).
Qed.

Lemma os_path_join_dir d f :
  last d = Some 47 -> startswith (lit "/") f = false -> os_path_join d f = d ++ f.
Proof. intros Hd Hf. unfold os_path_join. by rewrite Hf, Hd. Qed.

Lemma last_pdf_dir q : last (pdf_dir_of q) = Some 47.
Proof.
  unfold pdf_dir_of. change (lit "/") with (47 :: @nil N).
  by rewrite app_assoc, last_snoc.
Qed.

Lemma file_name_relative (t ext : str) :
  47 ∉ t -> startswith (lit "/") ext = false -> startswith (lit "/") (t ++ ext) = false.
Proof.
  intros Ht Hext. destruct t as [|c t]; [done|].
  apply not_elem_of_cons in Ht as [Hc _]. change (lit "/") with (47 :: @nil N).
  cbn [app startswith]. destruct (N.eqb_spec 47 c) as [E|_]; [by destruct Hc | done].
Qed.

(** The files a run writes lie under [pdfs] and [mds] when no query and no
    title holds a ['/'] and no query is [..]. *)
Lemma run_event_written env args ev :
  (forall q, q ∈ query_list args -> (47 ∉ q) /\ q <> lit "..") ->
  (forall q r, q ∈ query_list args ->
     r ∈ records_of (client_results env (client_of args) (search_of args q)) ->
     47 ∉ title r) ->
  run_event env args ev -> written_under_roots ev.
Proof.
  intros Hq Ht (q & Hin & [-> | [-> | H]]); [done..|].
  destruct (Hq q Hin) as [Hq1 Hq2].
  destruct ev as [line|name ok|t dp fn|path|path]; cbn [record_event] in H; try done.
  - destruct H as (r & Hr & -> & -> & ->).
    unfold written_under_roots. cbn [written_file].
    rewrite os_path_join_dir;
      [|apply last_pdf_dir | apply file_name_relative; [by apply (Ht q)|done]].
    by apply paths_under_fixed_roots, (Ht q).
  - destruct H as (_ & r & Hr & ->).
    unfold written_under_roots. cbn [written_file].
    by apply paths_under_fixed_roots, (Ht q).
Qed.

End Roots.

(** With the query [..] the directories are [./pdfs/../] and [./mds/../],
    the working directory itself: the PDF [./pdfs/../A.pdf] and the
    markdown file [./mds/../A.md] are written there, outside [pdfs] and
    [mds]. *)
Lemma C7_counterexample :
  trace (fst (main demo_env dotdot_args empty_world))
  = [EPrint (log_line demo_env info_color 0 (lit "Searching for .."));
     EMakedirs (lit "./pdfs/../") true;
     EMakedirs (lit "./mds/../") true;
     EPrint (log_line demo_env info_color 1 (lit "Downloading 1/10: A"));
     EDownload (lit "A") (lit "./pdfs/../") (lit "A.pdf");
     EPrint (log_line demo_env success_color 2 (lit "Downloaded A"));
     EOpenRead (lit "./pdfs/../A.pdf");
     EOpenWrite (lit "./mds/../A.md");
     EPrint (log_line demo_env success_color 3 (lit "Converted A to Markdown"));
     EPrint (log_line demo_env info_color 4 (lit "Downloading 2/10: B"));
     EDownload (lit "B") (lit "./pdfs/../") (lit "B.pdf");
     EPrint (log_line demo_env error_color 5
               (lit "Error downloading B: HTTP Error 404: Not Found"));
     EPrint (log_line demo_env info_color 6 (lit "Downloading 3/10: C"));
     EDownload (lit "C") (lit "./pdfs/../") (lit "C.pdf");
     EPrint (log_line demo_env success_color 7 (lit "Downloaded C"));
     EOpenRead (lit "./pdfs/../C.pdf");
     EPrint (lit "Error reading PDF file: EOF marker not found");
     EPrint (log_line demo_env error_color 8
               (lit "Error converting C to Markdown: EOF marker not found"))]
  /\ os_path_join (lit "./pdfs/../") (lit "A.pdf") = lit "./pdfs/../A.pdf"
  /\ resolve (lit "./pdfs/../A.pdf") = [lit "A.pdf"]
  /\ resolve (lit "./mds/../A.md") = [lit "A.md"]
  /\ under_fixed_roots (lit "./pdfs/../A.pdf") = false
  /\ under_fixed_roots (lit "./mds/../A.md") = false
  /\ is_Some (files (fs (fst (main demo_env dotdot_args empty_world))) !! lit "./pdfs/../A.pdf")
  /\ is_Some (files (fs (fst (main demo_env dotdot_args empty_world))) !! lit "./mds/../A.md")
  /\ ~ run_stays_under_roots demo_env dotdot_args empty_world.
Proof.
  split; [vm_compute; reflexivity|]. split; [vm_compute; reflexivity|].
  split; [vm_compute; reflexivity|]. split; [vm_compute; reflexivity|].
  split; [vm_compute; reflexivity|]. split; [vm_compute; reflexivity|].
  split; [vm_compute; by eexists|]. split; [vm_compute; by eexists|].
  intros H.
  assert (E : trace (fst (main demo_env dotdot_args empty_world))
              = trace empty_world ++ trace (fst (main demo_env dotdot_args empty_world)))
    by (vm_compute; reflexivity).
  specialize (H _ E). rewrite List.Forall_forall in H.
  assert (Hin : In (EOpenWrite (lit "./mds/../A.md"))
                  (trace (fst (main demo_env dotdot_args empty_world))))
    by (vm_compute; do 7 right; left; reflexivity).
  apply H in Hin. vm_compute in Hin. discriminate.
Qed.

(** C7, amended. Two runs whose arguments differ at most in
    [--output_dir] are the same run: they end in the same world (the same
    files and directories, the same trace of calls and printed lines) with
    the same outcome, so no output path depends on [--output_dir]. Every
    path the program hands to the file system begins with the text
    [./pdfs/] or [./mds/]: it is that text followed by the name of a query
    of the list, a slash and, for a file, the title of a record the search
    for that query yielded and the extension, all as they are. The files
    the run writes lie under [pdfs] and [mds] when no query and no
    yielded title holds a slash and no query is [..]; a path built from
    such a query and such a title does. *)
Theorem C7_output_dir_unused env (a1 a2 : Args) w :
  query_list a1 = query_list a2 ->
  markdown a1 = markdown a2 ->
  page_size a1 = page_size a2 ->
  delay_seconds a1 = delay_seconds a2 ->
  num_retries a1 = num_retries a2 ->
  max_results a1 = max_results a2 ->
  sort_by a1 = sort_by a2 ->
  main env a1 w = main env a2 w
  /\ (exists evs, trace (fst (main env a1 w)) = trace w ++ evs /\ Forall under_roots evs)
  /\ (exists evs,
        trace (fst (main env a1 w)) = trace w ++ evs /\ Forall (run_event env a1) evs)
  /\ ((forall q, q ∈ query_list a1 -> (47 ∉ q) /\ q <> lit "..") ->
      (forall q r, q ∈ query_list a1 ->
         r ∈ records_of (client_results env (client_of a1) (search_of a1 q)) ->
         47 ∉ title r) ->
      run_stays_under_roots env a1 w)
  /\ (forall q t,
        47 ∉ q -> q <> lit ".." -> 47 ∉ t ->
        under_fixed_roots (pdf_dir_of q) = true
        /\ under_fixed_roots (md_dir_of q) = true
        /\ under_fixed_roots (os_path_join (pdf_dir_of q) (t ++ lit ".pdf")) = true
        /\ under_fixed_roots (md_dir_of q ++ t ++ lit ".md") = true).
Proof.
  intros Hq Hm Hp Hd Hn Hx Hs.
  assert (Hrun : emits (run_event env a1) (main env a1)).
  { apply (emits_for_queries_record env a1 (run_event env a1)).
    intros q ev Hin Hev. by exists q. }
  split; [|split; [|split; [|split]]].
  - destruct a1, a2. simpl in *. subst. reflexivity.
  - apply (emits_for_queries env a1 under_roots).
    intros q ev _. apply query_event_under_roots.
  - apply Hrun.
  - intros Hqs Hts evs Hevs. destruct (Hrun w) as (evs' & Hevs' & Hall).
    rewrite Hevs in Hevs'. apply app_inv_head in Hevs' as <-.
    apply (Forall_impl _ _ _ Hall). intros ev. by apply run_event_written.
  - intros q t Hq1 Hq2 Ht.
    rewrite os_path_join_dir;
      [|apply last_pdf_dir | by apply file_name_relative].
    by apply paths_under_fixed_roots.
Qed.

(** ** The claims at concrete inputs *)

Section Witnesses.


Lemma C4_conversion_failure_keeps_pdf_witness :
  exists w3,
    result_body demo_env demo_args demo_pdf_dir demo_md_dir 2 record_C empty_world
    = (w3, inr tt)
    /\ files (fs w3) !! (demo_pdf_dir ++ lit "C" ++ lit ".pdf") = Some (Bytes [2]).
Proof.
  pose (fs1 := fst (download_pdf record_C demo_pdf_dir (title record_C ++ lit ".pdf")
                      (fs empty_world))).
  pose (w1 := logged demo_env success_color (lit "Downloaded " ++ title record_C)
                (with_fs fs1
                   (emitted (EDownload (title record_C) demo_pdf_dir
                               (title record_C ++ lit ".pdf"))
                      (logged demo_env info_color
                         (downloading_message demo_args 2 record_C) empty_world)))).
  pose (e := {| exn_class := PdfReadError; exn_str := lit "EOF marker not found" |}).
  assert (Hc : convert_and_save demo_env demo_args demo_pdf_dir demo_md_dir record_C w1
               = (fst (convert_and_save demo_env demo_args demo_pdf_dir demo_md_dir
                         record_C w1), inl e)).
  { vm_compute. reflexivity. }
  destruct (C4_conversion_failure_keeps_pdf demo_env demo_args demo_pdf_dir demo_md_dir
              2 record_C RDone empty_world fs1 _ e eq_refl Hc)
    as (Hbody & _ & _ & _ & Hpdf & _).
  eexists. split; [exact Hbody|].
  etransitivity; [exact Hpdf|]. vm_compute. reflexivity.
Defined.

Lemma C5_iteration_error_ends_run_witness :
  snd (main demo_env_raising demo_args empty_world) = inl stream_error.
Proof.
  pose (wa := fst (os_makedirs demo_env_raising demo_pdf_dir true
                     (logged demo_env_raising info_color
                        (lit "Searching for " ++ lit "a b") empty_world))).
  pose (wb := fst (os_makedirs demo_env_raising demo_md_dir true wa)).
  assert (Ha : os_makedirs demo_env_raising (pdf_dir_of (lit "a b")) true
                 (logged demo_env_raising info_color
                    (lit "Searching for " ++ lit "a b") empty_world) = (wa, inr tt))
    by (vm_compute; reflexivity).
  assert (Hb : os_makedirs demo_env_raising (md_dir_of (lit "a b")) true wa = (wb, inr tt))
    by (vm_compute; reflexivity).
  exact (f_equal snd
           (proj1 (C5_iteration_error_ends_run demo_env_raising demo_args
                     [] (lit "a b") [] [record_A] stream_error empty_world empty_world
                     wa wb eq_refl eq_refl Ha Hb eq_refl))).
Defined.

Lemma C7_output_dir_unused_witness :
  main demo_env demo_args empty_world = main demo_env demo_args_other_dir empty_world.
Proof.
  exact (proj1 (C7_output_dir_unused demo_env demo_args demo_args_other_dir empty_world
                  eq_refl eq_refl eq_refl eq_refl eq_refl eq_refl eq_refl)).
Defined.

Lemma C8_directories_first_witness :
  exists wb,
    main demo_env demo_args empty_world
    = bind (for_results demo_env demo_args demo_pdf_dir demo_md_dir 0
              (client_results demo_env (client_of demo_args)
                 (search_of demo_args (lit "a b"))))
           (fun _ => for_queries demo_env demo_args (client_of demo_args) Relevance [])
           wb
    /\ demo_pdf_dir ∈ dirs (fs wb) /\ demo_md_dir ∈ dirs (fs wb).
Proof.
  pose (wa := fst (os_makedirs demo_env demo_pdf_dir true
                     (logged demo_env info_color
                        (lit "Searching for " ++ lit "a b") empty_world))).
  pose (wb := fst (os_makedirs demo_env demo_md_dir true wa)).
  assert (Ha : os_makedirs demo_env (pdf_dir_of (lit "a b")) true
                 (logged demo_env info_color
                    (lit "Searching for " ++ lit "a b") empty_world) = (wa, inr tt))
    by (vm_compute; reflexivity).
  assert (Hb : os_makedirs demo_env (md_dir_of (lit "a b")) true wa = (wb, inr tt))
    by (vm_compute; reflexivity).
  destruct (C8_directories_first demo_env demo_args [] (lit "a b") [] empty_world
              empty_world wa wb eq_refl eq_refl Ha Hb) as (Hrun & _ & Hd1 & Hd2 & _).
  exists wb. split; [exact Hrun|]. split; [exact Hd1 | exact Hd2].
Defined.

Lemma C9_conversion_deterministic_witness :
  snd (convert_pdf_to_markdown demo_env (lit "paper.pdf") pdf_world)
  = snd (convert_pdf_to_markdown demo_env (lit "./pdfs/x/copy.pdf") other_pdf_world).
Proof.
  refine (proj1 (C9_conversion_deterministic demo_env demo_env
                   (lit "paper.pdf") (lit "./pdfs/x/copy.pdf") pdf_world other_pdf_world
                   (Bytes [1]) (Bytes [1]) _ _ eq_refl)).
  - vm_compute. reflexivity.
  - vm_compute. reflexivity.
Defined.


(** The search yields A, B and C and the download of B fails: A and C are
    downloaded all the same, A is converted, the PDF of C is unreadable
    and stays on disk. *)
Example three_records_trace :
  trace (fst (main demo_env demo_args empty_world))
  = [EPrint (log_line demo_env info_color 0 (lit "Searching for a b"));
     EMakedirs (lit "./pdfs/a_b/") true;
     EMakedirs (lit "./mds/a_b/") true;
     EPrint (log_line demo_env info_color 1 (lit "Downloading 1/10: A"));
     EDownload (lit "A") (lit "./pdfs/a_b/") (lit "A.pdf");
     EPrint (log_line demo_env success_color 2 (lit "Downloaded A"));
     EOpenRead (lit "./pdfs/a_b/A.pdf");
     EOpenWrite (lit "./mds/a_b/A.md");
     EPrint (log_line demo_env success_color 3 (lit "Converted A to Markdown"));
     EPrint (log_line demo_env info_color 4 (lit "Downloading 2/10: B"));
     EDownload (lit "B") (lit "./pdfs/a_b/") (lit "B.pdf");
     EPrint (log_line demo_env error_color 5
               (lit "Error downloading B: HTTP Error 404: Not Found"));
     EPrint (log_line demo_env info_color 6 (lit "Downloading 3/10: C"));
     EDownload (lit "C") (lit "./pdfs/a_b/") (lit "C.pdf");
     EPrint (log_line demo_env success_color 7 (lit "Downloaded C"));
     EOpenRead (lit "./pdfs/a_b/C.pdf");
     EPrint (lit "Error reading PDF file: EOF marker not found");
     EPrint (log_line demo_env error_color 8
               (lit "Error converting C to Markdown: EOF marker not found"))]
  /\ snd (main demo_env demo_args empty_world) = inr tt.
Proof. split; vm_compute; reflexivity. Qed.

Example three_records_files :
  map_to_list (files (fs (fst (main demo_env demo_args empty_world))))
  ≡ₚ [(lit "./pdfs/a_b/A.pdf", Bytes [1]);
      (lit "./pdfs/a_b/C.pdf", Bytes [2]);
      (lit "./mds/a_b/A.md",
       Text ([LF] ++ lit "## Page 1" ++ [LF; LF] ++ lit "Hello world" ++ [LF; LF]
             ++ lit "Second  paragraph" ++ [LF; LF]))].
Proof.
  vm_compute.
  match goal with |- ?l ≡ₚ ?r => assert (H : Permutation l r) end; [|exact H].
  eapply perm_trans; [apply perm_swap|]. reflexivity.
Qed.

(** Running the same command a second time, with every directory and file
    of the first run in place, raises nothing. *)
Example second_run_completes :
  snd (main demo_env demo_args (fst (main demo_env demo_args empty_world))) = inr tt.
Proof. vm_compute. reflexivity. Qed.

(** With a regular file [./pdfs/a_b] in the way the first [os.makedirs]
    raises [FileExistsError] and the run ends there: the [Searching] line
    and the call are all it has done, no directory is made and no download
    attempted. *)
Example blocked_directory_ends_run :
  main demo_env demo_args blocked_world
  = (emitted (EMakedirs demo_pdf_dir true)
       (logged demo_env info_color (lit "Searching for a b") blocked_world),
     inl {| exn_class := FileExistsError; exn_str := demo_pdf_dir |})
  /\ dirs (fs (fst (main demo_env demo_args blocked_world))) = ∅
  /\ attempts (trace (fst (main demo_env demo_args blocked_world))) = [].
Proof. split; [|split]; vm_compute; reflexivity. Qed.

End Witnesses.

(** ** Further properties of the markdown formatter *)

Section FormatterMore.

Lemma split_go_chars sep s k cur p c :
  p ∈ split_go sep k cur s -> c ∈ p -> c ∈ cur \/ c ∈ s.
Proof.
  revert k cur; induction s as [|c0 s IH]; intros k cur Hp Hc.
  - apply list_elem_of_singleton in Hp as ->. by left.
  - cbn [split_go] in Hp. destruct k as [|k].
    + destruct (startswith sep (c0 :: s)).
      * apply elem_of_cons in Hp as [-> | Hp]; [by left|].
        destruct (IH _ _ Hp Hc) as [H|H]; [by apply not_elem_of_nil in H|].
        right. by right.
      * destruct (IH _ _ Hp Hc) as [H|H]; [|right; by right].
        apply elem_of_app in H as [H|H]; [by left|].
        apply list_elem_of_singleton in H as ->. right. by left.
    + destruct (IH _ _ Hp Hc) as [H|H]; [by left | right; by right].
Qed.

Lemma paragraph_blocks_all_space text :
  forallb is_space text = true -> paragraph_blocks text = [].
Proof.
  intros Htext. unfold paragraph_blocks.
  assert (Hall : forall p, p ∈ split [LF; LF] text -> clean_paragraph p = []).
  { intros p Hp. apply clean_paragraph_all_space, forallb_forall. intros c Hc.
    apply list_elem_of_In in Hc.
    destruct (split_go_chars _ _ _ _ _ _ Hp Hc) as [H|H];
      [by apply not_elem_of_nil in H|].
    rewrite forallb_forall in Htext. by apply Htext, list_elem_of_In. }
  induction (split [LF; LF] text) as [|p ps IH]; [done|].
  cbn [map]. rewrite (Hall p) by (by left).
  rewrite filter_cons_False by done. apply IH. intros q Hq. apply Hall. by right.
Qed.

Lemma page_sections_all_space texts first :
  Forall (fun t => forallb is_space t = true) texts ->
  page_sections first texts
  = concat (map heading_block (map (fun i => first + Z.of_nat i)%Z (seq 0 (length texts)))).
Proof.
  intros H. revert first; induction H as [|t texts Ht _ IH]; intros first; [done|].
  cbn [page_sections length seq map concat]. unfold page_section.
  rewrite (paragraph_blocks_all_space t Ht). cbn [map concat].
  rewrite IH, <- seq_shift, (map_map S).
  replace (first + Z.of_nat 0)%Z with first by lia.
  rewrite (app_nil_r [LF; LF]). fold (heading_block first).
  do 3 f_equal. apply map_ext. intros i. lia.
Qed.

(** X4. A PDF whose pages hold nothing but whitespace (no page at all, empty
    pages, pages of blanks and line feeds) converts to its page headings
    alone: no paragraph is emitted, and a PDF without pages gives the
    empty text. *)
Theorem blank_pages_give_headings_only (texts : list str) :
  Forall (fun t => forallb is_space t = true) texts ->
  pages_loop 0 (map inr texts) []
  = inr (concat (map heading_block (one_to (length texts)))).
Proof.
  intros H. rewrite pages_loop_sections, app_nil_l.
  rewrite (page_sections_all_space texts _ H). unfold one_to.
  do 3 f_equal. apply map_ext. intros i. lia.
Qed.

Lemma blank_pages_give_headings_only_witness :
  pages_loop 0 (map inr [[]; [SPACE; LF; LF; 9; LF]]) []
  = inr (concat (map heading_block (one_to 2))).
Proof.
  apply (blank_pages_give_headings_only [[]; [SPACE; LF; LF; 9; LF]]).
  repeat constructor.
Defined.

Lemma lines_nil : lines [] = [[]].
Proof. reflexivity. Qed.

Lemma lines_LF b : lines (LF :: b) = [] :: lines b.
Proof. exact (lines_cut [] b (not_elem_of_nil LF)). Qed.

Lemma lines_blocks bs rest :
  Forall (fun b => LF ∉ b) bs ->
  lines (concat (map (fun b => b ++ [LF; LF]) bs) ++ rest)
  = flat_map (fun b => [b; []]) bs ++ lines rest.
Proof.
  induction 1 as [|b bs Hb _ IH]; [done|].
  cbn [map concat flat_map]. rewrite <- !app_assoc.
  change (b ++ [LF; LF] ++ ?x) with (b ++ LF :: LF :: x).
  rewrite (lines_cut b) by done. rewrite lines_LF, IH. done.
Qed.

Lemma lines_sections texts first rest :
  (0 < first)%Z ->
  lines (page_sections first texts ++ rest) = section_lines first texts ++ lines rest.
Proof.
  revert first; induction texts as [|t texts IH]; intros first Hf; [done|].
  cbn [page_sections section_lines]. unfold page_section.
  rewrite <- !app_assoc.
  change ([LF] ++ ?x) with (LF :: x). rewrite lines_LF.
  change (heading_line first ++ [LF; LF] ++ ?x) with (heading_line first ++ LF :: LF :: x).
  rewrite (lines_cut (heading_line first)) by (by apply heading_line_no_LF).
  rewrite lines_LF, lines_blocks by apply paragraph_blocks_no_LF.
  rewrite IH by lia. cbn [app]. by rewrite <- app_assoc.
Qed.

(** X5. Split at its line feeds, the text of a conversion is, page after page,
    an empty line, the heading of the page, an empty line, then each
    paragraph block of the page with an empty line after it; one more
    empty line ends the text. Every block thus stands on a line of its
    own between two empty lines. *)
Theorem markdown_text_lines (texts : list str) :
  exists markdown_text,
    pages_loop 0 (map inr texts) [] = inr markdown_text
    /\ lines markdown_text = section_lines 1 texts ++ [[]].
Proof.
  exists (page_sections 1 texts). split.
  - by rewrite pages_loop_sections.
  - rewrite <- (app_nil_r (page_sections 1 texts)).
    rewrite lines_sections by lia. by rewrite lines_nil.
Qed.

Lemma lstrip_id s :
  (forall c, head s = Some c -> is_space c = false) -> lstrip s = s.
Proof.
  destruct s as [|c s]; [done|]. intros H. cbn [lstrip].
  by rewrite (H c eq_refl).
Qed.

Lemma strip_idempotent s : strip (strip s) = strip s.
Proof.
  destruct (strip_spec s) as (_ & _ & _ & _ & _ & Hh & Hl).
  set (t := strip s) in *. unfold strip at 1, rstrip.
  rewrite (lstrip_id t Hh), lstrip_id; [apply rev_involutive|].
  intros c Hc. apply Hl. by rewrite <- (rev_involutive t), last_rev_head.
Qed.

Lemma replace_id old new s : old ∉ s -> replace old new s = s.
Proof.
  induction s as [|c s IH]; [done|]. intros [Hc Hs]%not_elem_of_cons.
  cbn [replace map]. destruct (N.eqb_spec c old) as [E|_]; [by destruct Hc|].
  f_equal. by apply IH.
Qed.

Lemma clean_paragraph_idempotent p :
  clean_paragraph (clean_paragraph p) = clean_paragraph p.
Proof.
  unfold clean_paragraph at 1.
  rewrite replace_id by apply clean_paragraph_no_LF.
  apply strip_idempotent.
Qed.

Lemma split_blank_last a cur : LF ∉ a -> split_go [LF; LF] 0 cur a = [cur ++ a].
Proof.
  revert cur; induction a as [|c a IH]; intros cur Ha; cbn [split_go startswith].
  - by rewrite app_nil_r.
  - apply not_elem_of_cons in Ha as [Hc Ha].
    destruct (N.eqb_spec LF c) as [E|_]; [by destruct Hc|]. cbn [andb].
    rewrite IH by done. by rewrite <- app_assoc.
Qed.

Lemma split_blank_cut a b cur :
  LF ∉ a ->
  split_go [LF; LF] 0 cur (a ++ LF :: LF :: b) = (cur ++ a) :: split_go [LF; LF] 0 [] b.
Proof.
  revert cur; induction a as [|c a IH]; intros cur Ha; cbn [split_go startswith app].
  - rewrite N.eqb_refl, app_nil_r. reflexivity.
  - apply not_elem_of_cons in Ha as [Hc Ha].
    destruct (N.eqb_spec LF c) as [E|_]; [by destruct Hc|]. cbn [andb].
    rewrite IH by done. by rewrite <- app_assoc.
Qed.

Lemma split_join_blocks b bs :
  Forall (fun b => LF ∉ b) (b :: bs) ->
  split [LF; LF] (join [LF; LF] (b :: bs)) = b :: bs.
Proof.
  revert b; induction bs as [|b' bs IH]; intros b Hall.
  - apply Forall_cons in Hall as [Hb _]. cbn [join]. unfold split.
    by rewrite split_blank_last.
  - apply Forall_cons in Hall as [Hb Hall].
    change (join [LF; LF] (b :: b' :: bs))
      with (b ++ LF :: LF :: join [LF; LF] (b' :: bs)).
    unfold split. rewrite split_blank_cut by done. cbn [app]. f_equal.
    by apply IH.
Qed.

Lemma paragraph_blocks_nonempty text :
  Forall (fun b => nonempty b = true) (paragraph_blocks text).
Proof.
  unfold paragraph_blocks. apply Forall_forall. intros b Hb.
  by apply list_elem_of_filter in Hb as [Hb _].
Qed.

Lemma paragraph_blocks_clean text :
  Forall (fun b => clean_paragraph b = b) (paragraph_blocks text).
Proof.
  unfold paragraph_blocks. apply Forall_forall. intros b Hb.
  apply list_elem_of_filter in Hb as [_ Hb].
  apply list_elem_of_fmap in Hb as (p & -> & _). apply clean_paragraph_idempotent.
Qed.

(** X6. Formatting is stable on its own output: cleaning a cleaned paragraph
    changes nothing, and the paragraph blocks of a page, joined by blank
    lines and taken as the text of a page again, give the same blocks. *)
Theorem paragraph_blocks_stable (text : str) :
  paragraph_blocks (join [LF; LF] (paragraph_blocks text)) = paragraph_blocks text
  /\ forall p, clean_paragraph (clean_paragraph p) = clean_paragraph p.
Proof.
  split; [|apply clean_paragraph_idempotent].
  pose proof (paragraph_blocks_no_LF text) as HLF.
  pose proof (paragraph_blocks_nonempty text) as Hne.
  pose proof (paragraph_blocks_clean text) as Hcl.
  destruct (paragraph_blocks text) as [|b bs] eqn:E; [reflexivity|].
  unfold paragraph_blocks at 1. rewrite split_join_blocks by done.
  clear E HLF. induction Hne as [|x xs Hx _ IH]; [done|].
  apply Forall_cons in Hcl as [Hcx Hcl].
  cbn [map]. rewrite Hcx, filter_cons_True by done. f_equal. by apply IH.
Qed.

End FormatterMore.

Section ConvertErrors.

Variable env : Env.

Lemma convert_handler_run pdf_path e w :
  convert_handler pdf_path e w
  = ({| fs := fs w; trace := trace w ++ convert_messages pdf_path e; clock := clock w |},
     inl e).
Proof.
  unfold convert_handler, convert_messages.
  destruct w as [f t c]. destruct (exn_class e); cbn; by rewrite ?app_nil_r.
Qed.

Lemma pages_loop_fails before e after page_num md :
  pages_loop page_num (map inr before ++ inl e :: after) md = inl e.
Proof.
  revert page_num md; induction before as [|t before IH]; intros page_num md; [done|].
  cbn [map app pages_loop]. apply IH.
Qed.



(** X3. The PDF is there but cannot be read: whether [PdfReader] raises or
    the [extract_text()] of some page does, [convert_pdf_to_markdown]
    raises that exception and returns no text, not even that of the pages
    before the failing one. A [PdfReadError] is announced by
    [Error reading PDF file: <e>] first, another exception passes in
    silence; the file system is unchanged. *)
Theorem convert_unreadable_pdf pdf_path w pdf_file e before after :
  files (fs w) !! pdf_path = Some pdf_file ->
  pdf_reader env pdf_file = inl e
  \/ pdf_reader env pdf_file = inr (map inr before ++ inl e :: after) ->
  convert_pdf_to_markdown env pdf_path w
  = ({| fs := fs w;
        trace := trace w ++ EOpenRead pdf_path :: convert_messages pdf_path e;
        clock := clock w |}, inl e).
Proof.
  intros Hf Hr. unfold convert_pdf_to_markdown, try_except, bind.
  rewrite (open_rb_found _ _ _ Hf).
  assert (Hfinal : convert_handler pdf_path e (emitted (EOpenRead pdf_path) w)
    = ({| fs := fs w;
          trace := trace w ++ EOpenRead pdf_path :: convert_messages pdf_path e;
          clock := clock w |}, inl e)).
  { rewrite convert_handler_run. unfold emitted. cbn [fs trace clock].
    by rewrite <- app_assoc. }
  destruct Hr as [-> | ->]; [exact Hfinal|].
  by rewrite pages_loop_fails.
Qed.

End ConvertErrors.


Lemma convert_unreadable_pdf_witness :
  snd (convert_pdf_to_markdown demo_env (lit "paper.pdf")
         {| fs := {| dirs := ∅; files := {[ lit "paper.pdf" := Bytes [7] ]} |};
            trace := []; clock := 0 |})
  = inl {| exn_class := PdfReadError; exn_str := lit "EOF marker not found" |}.
Proof.
  refine (f_equal snd (convert_unreadable_pdf demo_env (lit "paper.pdf") _ (Bytes [7])
                         _ [] [] _ (or_introl eq_refl))).
  vm_compute. reflexivity.
Defined.

(** ** The status reporter *)

Section Reporter.

Variable env : Env.

Lemma level_color_inj l1 l2 (x y : str) :
  level_color l1 ++ x = level_color l2 ++ y -> l1 = l2.
Proof.
  intros H. apply (f_equal (take 14)) in H.
  destruct l1, l2; try reflexivity; cbv in H; discriminate.
Qed.

(** X1. Each of [info], [success], [warning] and [error] prints exactly one
    line, [<style><time> - <message><reset>], reads the clock once,
    touches no file and never raises. The line tells the level: lines of
    two levels are never equal. With timestamps of one length (as
    [%Y-%m-%d %H:%M:%S] gives), the line also tells its timestamp and its
    message. *)
Theorem status_line_tells_level_and_message (level : Level) (message : str) (w : World) :
  status env level message w
  = ({| fs := fs w;
        trace := trace w ++ [EPrint (level_color level ++ strftime_now env (clock w)
                                     ++ lit " - " ++ message ++ Style_RESET_ALL)];
        clock := S (clock w) |}, inr tt)
  /\ (forall level' n' message',
        log_line env (level_color level') n' message'
        = log_line env (level_color level) (clock w) message ->
        level' = level)
  /\ (forall n' message',
        length (strftime_now env n') = length (strftime_now env (clock w)) ->
        log_line env (level_color level) n' message'
        = log_line env (level_color level) (clock w) message ->
        strftime_now env n' = strftime_now env (clock w) /\ message' = message).
Proof.
  split; [by destruct level|]. split.
  - intros level' n' message' H. unfold log_line in H. by apply level_color_inj in H.
  - intros n' message' Hlen H. unfold log_line in H.
    apply app_inv_head in H. apply app_inj_1 in H as [Ht H]; [|done].
    split; [done|]. apply app_inv_head in H. by apply app_inv_tail in H.
Qed.

End Reporter.

Lemma status_line_tells_level_and_message_witness :
  strftime_now demo_env 3 = strftime_now demo_env 0
  /\ lit "Error downloading B: timed out" = lit "Error downloading B: timed out".
Proof.
  exact (proj2 (proj2 (status_line_tells_level_and_message demo_env LError
                         (lit "Error downloading B: timed out") empty_world))
           3%nat (lit "Error downloading B: timed out") eq_refl eq_refl).
Defined.

(** ** Further properties of the orchestrator *)

Section OrchestratorMore.

Variable env : Env.
Variable args : Args.

Lemma attempts_app a b : attempts (a ++ b) = attempts a ++ attempts b.
Proof. unfold attempts. apply omap_app. Qed.

Lemma makedirs_calls_app a b :
  makedirs_calls (a ++ b) = makedirs_calls a ++ makedirs_calls b.
Proof. unfold makedirs_calls. apply omap_app. Qed.

Lemma quiet_attempts evs : Forall quiet evs -> attempts evs = [].
Proof.
  induction 1 as [|ev evs Hev _ IH]; [done|].
  change (ev :: evs) with ([ev] ++ evs). rewrite attempts_app, IH.
  by destruct ev.
Qed.

Lemma quiet_makedirs_calls evs : Forall quiet evs -> makedirs_calls evs = [].
Proof.
  induction 1 as [|ev evs Hev _ IH]; [done|].
  change (ev :: evs) with ([ev] ++ evs). rewrite makedirs_calls_app, IH.
  by destruct ev.
Qed.

Lemma emits_convert_and_save_gen (P : Event -> Prop) d m r :
  (forall line, P (EPrint line)) -> (forall path, P (EOpenRead path)) ->
  (forall path, P (EOpenWrite path)) ->
  emits P (convert_and_save env args d m r).
Proof.
  intros Hp Hr Hw. unfold convert_and_save.
  destruct (markdown args); [|apply emits_ret].
  apply emits_bind; [by apply emits_convert_pdf_to_markdown|].
  intros markdown_text. apply emits_bind; [by apply emits_write_text|].
  intros _. by apply emits_log.
Qed.

(** What the body of the result loop adds to the trace: the progress
    line, the download attempt, then nothing but printed lines and file
    openings. *)
Lemma result_body_trace d m index r w :
  exists evs,
    trace (fst (result_body env args d m index r w))
    = trace w
      ++ EPrint (log_line env info_color (clock w) (downloading_message args index r))
      :: EDownload (title r) d (title r ++ lit ".pdf") :: evs
    /\ Forall quiet evs.
Proof.
  unfold result_body, bind, try_except. rewrite info_run, call_download_pdf_run.
  cbn [fs logged].
  destruct (download_pdf r d (title r ++ lit ".pdf") (fs w)) as [fs' [e|]].
  - rewrite error_run. eexists [_]. split.
    + unfold logged, with_fs, emitted. cbn [fst fs trace clock].
      rewrite <- !app_assoc. reflexivity.
    + by repeat constructor.
  - rewrite success_run.
    match goal with
    | |- context [convert_and_save env args d m r ?w1] =>
        destruct (emits_convert_and_save_gen quiet d m r
                    (fun _ => I) (fun _ => I) (fun _ => I) w1) as (evs & Ht & Hq);
        destruct (convert_and_save env args d m r w1) as [w2 [e|[]]]
    end; cbn [fst] in *.
    + rewrite error_run. cbn [fst logged trace]. rewrite Ht.
      eexists (_ :: evs ++ [_]). split.
      * unfold logged, with_fs, emitted. cbn [fs trace clock].
        rewrite <- !app_assoc. reflexivity.
      * constructor; [done|]. apply Forall_app. split; [done|]. by repeat constructor.
    + rewrite Ht. eexists (_ :: evs). split.
      * unfold logged, with_fs, emitted. cbn [fs trace clock].
        rewrite <- !app_assoc. reflexivity.
      * by constructor.
Qed.

Lemma for_results_attempts d m results index w :
  exists evs,
    trace (fst (for_results env args d m index results w)) = trace w ++ evs
    /\ attempts evs
       = map (fun r => (title r, d, title r ++ lit ".pdf")) (records_of results)
    /\ makedirs_calls evs = [].
Proof.
  revert index w; induction results as [|r rest IH|e]; intros index w.
  - exists []. by rewrite app_nil_r.
  - rewrite for_results_step.
    destruct (result_body_trace d m index r w) as (evs1 & Ht1 & Hq).
    destruct (IH (S index) (fst (result_body env args d m index r w)))
      as (evs2 & Ht2 & Ha2 & Hm2).
    eexists ((_ :: _ :: evs1) ++ evs2). split; [|split].
    + rewrite Ht2, Ht1. by rewrite <- app_assoc.
    + rewrite attempts_app, Ha2. cbn [records_of map]. unfold attempts at 1.
      cbn [omap list_omap]. fold (attempts evs1). by rewrite (quiet_attempts evs1).
    + rewrite makedirs_calls_app, Hm2. unfold makedirs_calls at 1.
      cbn [omap list_omap]. fold (makedirs_calls evs1).
      by rewrite (quiet_makedirs_calls evs1).
  - exists []. by rewrite app_nil_r.
Qed.

(** X7. For every result sequence, whether it finishes or raises, the loop
    attempts the download of every record the sequence yields, once each
    and in the order of the sequence, into the directory of the query
    under the name [<title>.pdf]; failures of downloads and conversions
    neither skip nor repeat a record. The first thing done for a record
    is the progress line with its number, counted from 1. *)
Theorem download_attempts_follow_records d m results index w :
  (exists evs,
     trace (fst (for_results env args d m index results w)) = trace w ++ evs
     /\ attempts evs
        = map (fun r => (title r, d, title r ++ lit ".pdf")) (records_of results))
  /\ (forall r i w0, exists evs,
        trace (fst (result_body env args d m i r w0))
        = trace w0
          ++ EPrint (log_line env info_color (clock w0)
                       (lit "Downloading " ++ str_of_int (Z.of_nat i + 1) ++ lit "/"
                        ++ str_of_int (max_results args) ++ lit ": " ++ title r))
          :: EDownload (title r) d (title r ++ lit ".pdf") :: evs
        /\ attempts evs = []).
Proof.
  split.
  - destruct (for_results_attempts d m results index w) as (evs & Ht & Ha & _).
    by exists evs.
  - intros r i w0. destruct (result_body_trace d m i r w0) as (evs & Ht & Hq).
    exists evs. split; [exact Ht | by apply quiet_attempts].
Qed.

Lemma write_text_run path text w :
  path ∉ dirs (fs w) -> dirname path ∈ dirs (fs w) ->
  text_encode_error env text = None ->
  write_text env path text w
  = (with_fs {| dirs := dirs (fs w); files := <[ path := Text text ]> (files (fs w)) |}
       (emitted (EOpenWrite path) w), inr tt).
Proof.
  intros Hd Hp He. unfold write_text, bind, emit. cbn.
  rewrite decide_False by done. rewrite decide_True by done. by rewrite He.
Qed.

(** X8. The whole of a successful record. When the download succeeds and
    leaves a readable PDF at [<pdf dir><title>.pdf], conversion is on and
    the markdown file can be written, the body of the result loop prints
    the progress line, downloads, prints [Downloaded <title>], reads the
    PDF, writes the converted text to [<md dir><title>.md] and prints
    [Converted <title> to Markdown]. Afterwards the markdown file holds
    exactly the converted text, whatever it held before (a record with the
    same title overwrites it), and the PDF is as the download left it. *)
Theorem converted_file_holds_markdown d m index r w fs1 pdf_file texts :
  markdown args = true ->
  download_pdf r d (title r ++ lit ".pdf") (fs w) = (fs1, None) ->
  files fs1 !! (d ++ title r ++ lit ".pdf") = Some pdf_file ->
  pdf_reader env pdf_file = inr (map inr texts) ->
  m ++ title r ++ lit ".md" ∉ dirs fs1 ->
  dirname (m ++ title r ++ lit ".md") ∈ dirs fs1 ->
  text_encode_error env (page_sections 1 texts) = None ->
  let w' :=
    {| fs := {| dirs := dirs fs1;
                files := <[ m ++ title r ++ lit ".md" := Text (page_sections 1 texts) ]>
                           (files fs1) |};
       trace := trace w
                ++ [EPrint (log_line env info_color (clock w)
                              (downloading_message args index r));
                    EDownload (title r) d (title r ++ lit ".pdf");
                    EPrint (log_line env success_color (S (clock w))
                              (lit "Downloaded " ++ title r));
                    EOpenRead (d ++ title r ++ lit ".pdf");
                    EOpenWrite (m ++ title r ++ lit ".md");
                    EPrint (log_line env success_color (S (S (clock w)))
                              (lit "Converted " ++ title r ++ lit " to Markdown"))];
       clock := S (S (S (clock w))) |} in
  result_body env args d m index r w = (w', inr tt)
  /\ files (fs w') !! (m ++ title r ++ lit ".md") = Some (Text (page_sections 1 texts))
  /\ files (fs w') !! (d ++ title r ++ lit ".pdf") = Some pdf_file.
Proof.
  intros Hmd Hd Hpdf Hread Hnotdir Hparent Henc w'.
  split; [|split].
  - unfold result_body, bind, try_except. rewrite info_run, call_download_pdf_run.
    cbn [fs logged]. rewrite Hd, success_run.
    unfold convert_and_save. rewrite Hmd. unfold bind.
    match goal with
    | |- context [convert_pdf_to_markdown env ?p ?w1] =>
        destruct (convert_run env p w1 pdf_file Hpdf) as (_ & Hs & Hw);
        rewrite Hread, pages_loop_sections in Hs; cbn [app] in Hs;
        specialize (Hw _ Hs);
        destruct (convert_pdf_to_markdown env p w1) as [w2 res]
    end.
    cbn [fst snd] in Hs, Hw. subst w2 res.
    rewrite write_text_run by done. rewrite success_run.
    unfold w', logged, with_fs, emitted. cbn [fs trace clock].
    by rewrite <- !app_assoc.
  - unfold w'. cbn [fs files]. apply lookup_insert_eq.
  - unfold w'. cbn [fs files]. rewrite lookup_insert_ne; [done|].
    intros H. by apply (path_pdf_ne_md d m (title r) (title r)).
Qed.

(** X9. A query without results, both of whose directory creations return:
    the processing prints the [Searching] line, creates the two directories
    and returns in the world the second creation left; it attempts no
    download, prints nothing else and changes no file. *)
Theorem query_without_results client criterion q w wa wb :
  client_results env client
    {| search_query := q; search_max_results := max_results args;
       search_sort_by := criterion |} = RDone ->
  os_makedirs env (pdf_dir_of q) true
    (logged env info_color (lit "Searching for " ++ q) w) = (wa, inr tt) ->
  os_makedirs env (md_dir_of q) true wa = (wb, inr tt) ->
  query_body env args client criterion q w = (wb, inr tt)
  /\ trace wb
     = trace w ++ [EPrint (log_line env info_color (clock w) (lit "Searching for " ++ q));
                   EMakedirs (pdf_dir_of q) true; EMakedirs (md_dir_of q) true]
  /\ files (fs wb) = files (fs w)
  /\ pdf_dir_of q ∈ dirs (fs wb) /\ md_dir_of q ∈ dirs (fs wb).
Proof.
  intros Hres Ha Hb.
  destruct (query_body_run env args client criterion q w wa wb Ha Hb)
    as (Hrun & Ht & Hd1 & Hd2 & Hf & _).
  rewrite Hres in Hrun. done.
Qed.

(** X10. When the PDF cannot be converted (it is missing or unreadable), the
    guarded conversion raises what [convert_pdf_to_markdown] raised and
    stops there: it opens no file for writing, so no markdown file is
    created or changed, and it leaves the file system as it was. *)
Theorem failed_conversion_writes_nothing d m r w e :
  markdown args = true ->
  snd (convert_pdf_to_markdown env (d ++ title r ++ lit ".pdf") w) = inl e ->
  convert_and_save env args d m r w
  = (fst (convert_pdf_to_markdown env (d ++ title r ++ lit ".pdf") w), inl e)
  /\ fs (fst (convert_and_save env args d m r w)) = fs w
  /\ exists evs,
       trace (fst (convert_and_save env args d m r w)) = trace w ++ evs
       /\ Forall writes_nothing evs.
Proof.
  intros Hmd He.
  assert (Hrun : convert_and_save env args d m r w
    = (fst (convert_pdf_to_markdown env (d ++ title r ++ lit ".pdf") w), inl e)).
  { unfold convert_and_save. rewrite Hmd. unfold bind.
    destruct (convert_pdf_to_markdown env (d ++ title r ++ lit ".pdf") w) as [w1 res].
    cbn [fst snd] in *. by subst res. }
  split; [exact Hrun|]. rewrite Hrun. cbn [fst]. split; [apply convert_fs|].
  by apply (emits_convert_pdf_to_markdown env writes_nothing).
Qed.

Lemma for_results_fs_no_markdown d m results index w :
  markdown args = false ->
  fs (fst (for_results env args d m index results w))
  = downloads_fold d (records_of results) (fs w).
Proof.
  intros Hmd. revert index w; induction results as [|r rest IH|e]; intros index w.
  - reflexivity.
  - rewrite for_results_step, IH. cbn [records_of downloads_fold fold_left].
    unfold result_body, bind, try_except.
    rewrite info_run, call_download_pdf_run. cbn [fs logged].
    destruct (download_pdf r d (title r ++ lit ".pdf") (fs w)) as [fs' [e|]].
    + by rewrite error_run.
    + rewrite success_run. unfold convert_and_save. by rewrite Hmd.
  - reflexivity.
Qed.

(** X11. With conversion off, the loop over the results of a query changes the
    file system by the downloads and by nothing else: the file system it
    leaves is the one the downloads of the yielded records leave, applied
    one after the other, failed ones included. *)
Theorem no_markdown_only_downloads d m results index w :
  markdown args = false ->
  fs (fst (for_results env args d m index results w))
  = downloads_fold d (records_of results) (fs w)
  /\ exists evs,
       trace (fst (for_results env args d m index results w)) = trace w ++ evs
       /\ Forall opens_no_file evs.
Proof.
  intros Hmd. split; [by apply for_results_fs_no_markdown|].
  destruct (emits_for_results env args d m results index w) as (evs & Ht & Hevs).
  exists evs. split; [done|]. apply (Forall_impl _ _ _ Hevs).
  intros ev H. destruct ev; unfold result_event in H; try done; destruct H; congruence.
Qed.

(** What the processing of one query adds to the trace: its [os.makedirs]
    calls are a prefix of the two of the query, and both when it returns. *)
Lemma query_body_makedirs client criterion q w :
  exists evs,
    trace (fst (query_body env args client criterion q w)) = trace w ++ evs
    /\ makedirs_calls evs `prefix_of` [pdf_dir_of q; md_dir_of q]
    /\ (forall u, snd (query_body env args client criterion q w) = inr u ->
        makedirs_calls evs = [pdf_dir_of q; md_dir_of q]).
Proof.
  destruct (query_body_cases env args client criterion q w)
    as [(e & _ & Hrun) | [(w1 & e & _ & _ & Hrun & Ht1) | (w1 & w2 & _ & _ & Hrun & Ht2 & _)]].
  - rewrite Hrun. cbn [fst snd emitted logged trace].
    eexists [_; _]. split; [by rewrite <- app_assoc|]. split; [|done].
    by exists [md_dir_of q].
  - rewrite Hrun. cbn [fst snd emitted trace]. rewrite Ht1. cbn [logged trace].
    eexists [_; _; _]. split; [by rewrite <- !app_assoc|]. split; [|done].
    by exists [].
  - rewrite Hrun.
    match goal with
    | |- context [for_results env args ?d ?m 0 ?rs w2] =>
        destruct (for_results_attempts d m rs 0 w2) as (evs & Ht & _ & Hm)
    end.
    rewrite Ht, Ht2. cbn [logged trace].
    eexists ([_; _; _] ++ evs). split; [by rewrite <- !app_assoc|].
    rewrite makedirs_calls_app, Hm, app_nil_r. split; [by exists []|done].
Qed.

End OrchestratorMore.

Section QueryOrder.

Variable env : Env.
Variable args : Args.

Lemma for_queries_makedirs client criterion queries w :
  exists evs,
    trace (fst (for_queries env args client criterion queries w)) = trace w ++ evs
    /\ makedirs_calls evs `prefix_of` query_dirs queries
    /\ (forall u, snd (for_queries env args client criterion queries w) = inr u ->
        makedirs_calls evs = query_dirs queries).
Proof.
  revert w; induction queries as [|q queries IH]; intros w.
  - exists []. by rewrite app_nil_r.
  - destruct (query_body_makedirs env args client criterion q w) as (evs1 & Ht1 & Hp1 & He1).
    cbn [for_queries]. unfold bind.
    destruct (query_body env args client criterion q w) as [w1 [e|[]]]; cbn [fst snd] in *.
    + exists evs1. split; [done|]. split; [|done].
      change (query_dirs (q :: queries))
        with ([pdf_dir_of q; md_dir_of q] ++ query_dirs queries).
      by apply prefix_app_r.
    + destruct (IH w1) as (evs2 & Ht2 & Hp2 & He2).
      exists (evs1 ++ evs2). rewrite Ht2, Ht1, makedirs_calls_app, (He1 tt eq_refl).
      split; [by rewrite <- app_assoc|].
      change (query_dirs (q :: queries))
        with ([pdf_dir_of q; md_dir_of q] ++ query_dirs queries).
      split; [by apply prefix_app|]. intros u Hu. f_equal. by apply (He2 u).
Qed.

(** X12. The run takes the queries in the order of [--query_list]: its
    [os.makedirs] calls are those of the first query ([pdfs/..] then
    [mds/..]), then those of the second, and so on, one pair for each
    occurrence of a query. A run that ends early has made a prefix of
    these calls; a run that returns has made them all. *)
Theorem directories_in_query_order w :
  exists evs,
    trace (fst (main env args w)) = trace w ++ evs
    /\ makedirs_calls evs `prefix_of` query_dirs (query_list args)
    /\ (snd (main env args w) = inr tt ->
        makedirs_calls evs = query_dirs (query_list args)).
Proof.
  destruct (for_queries_makedirs (client_of args) (criterion_of (sort_by args))
              (query_list args) w) as (evs & Ht & Hp & He).
  exists evs. split; [exact Ht|]. split; [exact Hp|]. intros H. by apply (He tt).
Qed.

End QueryOrder.

(** ** The further properties at concrete inputs *)

Section MoreWitnesses.

Lemma converted_file_holds_markdown_witness :
  files (fs (fst (result_body demo_env demo_args demo_pdf_dir demo_md_dir 0 record_A
                    dirs_world)))
    !! (demo_md_dir ++ lit "A" ++ lit ".md")
  = Some (Text (page_sections 1 [hello_text])).
Proof.
  pose (fs1 := fst (download_pdf record_A demo_pdf_dir (title record_A ++ lit ".pdf")
                      (fs dirs_world))).
  assert (H1 : files fs1 !! (demo_pdf_dir ++ title record_A ++ lit ".pdf")
               = Some (Bytes [1])) by (vm_compute; reflexivity).
  assert (H2 : demo_md_dir ++ title record_A ++ lit ".md" ∉ dirs fs1).
  { apply (bool_decide_unpack _). vm_compute. exact I. }
  assert (H3 : dirname (demo_md_dir ++ title record_A ++ lit ".md") ∈ dirs fs1).
  { apply (bool_decide_unpack _). vm_compute. exact I. }
  destruct (converted_file_holds_markdown demo_env demo_args demo_pdf_dir demo_md_dir
              0 record_A dirs_world fs1 (Bytes [1]) [hello_text]
              eq_refl eq_refl H1 eq_refl H2 H3 eq_refl) as (Hrun & Hmd & _).
  rewrite Hrun. exact Hmd.
Defined.

Lemma query_without_results_witness :
  snd (query_body demo_env_no_results demo_args (client_of demo_args) Relevance
         (lit "a b") empty_world) = inr tt.
Proof.
  pose (wa := fst (os_makedirs demo_env_no_results demo_pdf_dir true
                     (logged demo_env_no_results info_color
                        (lit "Searching for " ++ lit "a b") empty_world))).
  pose (wb := fst (os_makedirs demo_env_no_results demo_md_dir true wa)).
  assert (Ha : os_makedirs demo_env_no_results (pdf_dir_of (lit "a b")) true
                 (logged demo_env_no_results info_color
                    (lit "Searching for " ++ lit "a b") empty_world) = (wa, inr tt))
    by (vm_compute; reflexivity).
  assert (Hb : os_makedirs demo_env_no_results (md_dir_of (lit "a b")) true wa
               = (wb, inr tt))
    by (vm_compute; reflexivity).
  exact (f_equal snd
           (proj1 (query_without_results demo_env_no_results demo_args
                     (client_of demo_args) Relevance (lit "a b") empty_world wa wb
                     eq_refl Ha Hb))).
Defined.

Lemma failed_conversion_writes_nothing_witness :
  fs (fst (convert_and_save demo_env demo_args demo_pdf_dir demo_md_dir record_A
             dirs_world)) = fs dirs_world.
Proof.
  refine (proj1 (proj2 (failed_conversion_writes_nothing demo_env demo_args
                          demo_pdf_dir demo_md_dir record_A dirs_world
                          {| exn_class := FileNotFoundError;
                             exn_str := demo_pdf_dir ++ title record_A ++ lit ".pdf" |}
                          eq_refl _))).
  vm_compute. reflexivity.
Defined.

Lemma no_markdown_only_downloads_witness :
  fs (fst (for_results demo_env demo_args_no_markdown demo_pdf_dir demo_md_dir 0
             (RYield record_A (RYield record_B RDone)) dirs_world))
  = downloads_fold demo_pdf_dir [record_A; record_B] (fs dirs_world).
Proof.
  exact (proj1 (no_markdown_only_downloads demo_env demo_args_no_markdown
                  demo_pdf_dir demo_md_dir (RYield record_A (RYield record_B RDone))
                  0 dirs_world eq_refl)).
Defined.

Lemma directories_in_query_order_witness :
  exists evs,
    trace (fst (main demo_env demo_args empty_world)) = trace empty_world ++ evs
    /\ makedirs_calls evs = query_dirs [lit "a b"].
Proof.
  destruct (directories_in_query_order demo_env demo_args empty_world)
    as (evs & Ht & _ & He).
  exists evs. split; [exact Ht|]. apply He. vm_compute. reflexivity.
Defined.

End MoreWitnesses.
